(** * pyrevit.coreutils: script metadata extraction and directory fingerprints

    A shallow embedding of [ScriptFileParser] and [calculate_dir_hash] from
    [Lib/pyrevit/coreutils/__init__.py], with the properties of the two
    components stated and proved over it.

    Python values that the code handles are modelled as follows.
    - Exceptions are values of [exn] (a class and the text [str(err)] gives);
      a call that may raise returns a [result].
    - Numbers are [pynum]: [os.path.getmtime] returns a float (IEEE binary64,
      here Rocq's primitive floats) and [mtime_sum] starts as the int [0].
    - Library functions the code calls but does not define ([ast.parse],
      [ast.literal_eval], [re.search], [open], [str] of a float) are the
      fields of the class [Runtime]: the theorems hold for every runtime,
      and [Sample.runtime] is one to compute with.  [hashlib.md5] is
      written out after RFC 1321 so that digests can be computed.
    - The file system is a tree of entries that carry what [os.listdir] and
      [os.path.getmtime] return for them. *)

From Stdlib Require Import ZArith List String Ascii Bool Lia Permutation.
From Stdlib Require Import DecimalString PrimFloat FloatOps SpecFloat.
From Stdlib Require Uint63.
Import ListNotations.

Set Warnings "-register-all".

Local Open Scope string_scope.
Local Open Scope Z_scope.

(** ** Exceptions and results *)

Module Py.

(** The exception classes that occur; all of them derive from [Exception]. *)
Inductive exn_class : Type :=
| PyRevitException
| IOError
| OSError
| SyntaxError
| ValueError
| TypeError
| AttributeError.

(** An exception: its class and [str(err)]. *)
Record exn : Type := Exn { exn_type : exn_class; exn_str : string }.

(** The outcome of a call: it raises or it returns. *)
Inductive result (A : Type) : Type :=
| Raise (e : exn)
| Return (a : A).

Arguments Raise {A} e.
Arguments Return {A} a.

Definition bind {A B : Type} (r : result A) (k : A -> result B) : result B :=
  match r with
  | Raise e => Raise e
  | Return a => k a
  end.

Definition raises {A : Type} (r : result A) : bool :=
  match r with
  | Raise _ => true
  | Return _ => false
  end.

(** ** Numbers *)

Inductive pynum : Type :=
| PyInt (z : Z)
| PyFloat (f : float).

(** [a + b] where [b] is a float: an int operand is converted first (the
    only int the code ever adds to is the initial [0]; the conversion is exact
    below 2^53 in absolute value). *)
Definition float_of_Z (z : Z) : float :=
  match z with
  | Z0 => PrimFloat.zero
  | Zpos _ => PrimFloat.of_uint63 (Uint63.of_Z z)
  | Zneg _ => PrimFloat.opp (PrimFloat.of_uint63 (Uint63.of_Z (- z)))
  end.

Definition add_float (a : pynum) (b : float) : pynum :=
  match a with
  | PyInt z => PyFloat (PrimFloat.add (float_of_Z z) b)
  | PyFloat x => PyFloat (PrimFloat.add x b)
  end.

(** [str] of an int: its decimal digits. *)
Definition str_int (z : Z) : string :=
  NilZero.string_of_int (Z.to_int z).

End Py.

Export Py.

Declare Scope result_scope.
Delimit Scope result_scope with result.
Notation "x <- c ;; k" := (bind c (fun x => k))
  (at level 61, c at next level, right associativity) : result_scope.

(** ** MD5 (RFC 1321), for [hashlib.md5(...).hexdigest()] *)

Module MD5.

Definition w32 (x : Z) : Z := x mod 2 ^ 32.

Definition add32 (x y : Z) : Z := w32 (x + y).

Definition not32 (x : Z) : Z := Z.lxor x (2 ^ 32 - 1).

Definition rotl32 (x n : Z) : Z :=
  Z.lor (w32 (Z.shiftl x n)) (Z.shiftr x (32 - n)).

(** Per-round shift amounts. *)
Definition S : list Z :=
  [7; 12; 17; 22; 7; 12; 17; 22; 7; 12; 17; 22; 7; 12; 17; 22;
   5; 9; 14; 20; 5; 9; 14; 20; 5; 9; 14; 20; 5; 9; 14; 20;
   4; 11; 16; 23; 4; 11; 16; 23; 4; 11; 16; 23; 4; 11; 16; 23;
   6; 10; 15; 21; 6; 10; 15; 21; 6; 10; 15; 21; 6; 10; 15; 21].

(** [K i = floor (2^32 * abs (sin (i + 1)))]. *)
Definition K : list Z :=
  [3614090360; 3905402710; 606105819; 3250441966;
   4118548399; 1200080426; 2821735955; 4249261313;
   1770035416; 2336552879; 4294925233; 2304563134;
   1804603682; 4254626195; 2792965006; 1236535329;
   4129170786; 3225465664; 643717713; 3921069994;
   3593408605; 38016083; 3634488961; 3889429448;
   568446438; 3275163606; 4107603335; 1163531501;
   2850285829; 4243563512; 1735328473; 2368359562;
   4294588738; 2272392833; 1839030562; 4259657740;
   2763975236; 1272893353; 4139469664; 3200236656;
   681279174; 3936430074; 3572445317; 76029189;
   3654602809; 3873151461; 530742520; 3299628645;
   4096336452; 1126891415; 2878612391; 4237533241;
   1700485571; 2399980690; 4293915773; 2240044497;
   1873313359; 4264355552; 2734768916; 1309151649;
   4149444226; 3174756917; 718787259; 3951481745].

Definition state : Type := (Z * Z * Z * Z)%type.

Definition init : state :=
  (0x67452301, 0xefcdab89, 0x98badcfe, 0x10325476).

(** The bytes of a string, each as a number below 256. *)
Definition bytes_of_string (s : string) : list Z :=
  map (fun c => Z.of_N (N_of_ascii c)) (list_ascii_of_string s).

(** [n] as [k] little-endian bytes. *)
Fixpoint le_bytes (k : nat) (n : Z) : list Z :=
  match k with
  | O => []
  | Datatypes.S k' => n mod 256 :: le_bytes k' (n / 256)
  end.

(** Padding: a one bit, zeros up to 56 modulo 64, the bit length on 64 bits. *)
Definition pad (msg : list Z) : list Z :=
  let len := Z.of_nat (List.length msg) in
  let zeros := Z.to_nat ((55 - len) mod 64) in
  msg ++ [128] ++ repeat 0 zeros ++ le_bytes 8 ((8 * len) mod 2 ^ 64).

(** Little-endian 32-bit words of a byte sequence. *)
Fixpoint words (fuel : nat) (bs : list Z) : list Z :=
  match fuel, bs with
  | Datatypes.S fuel', b0 :: b1 :: b2 :: b3 :: rest =>
      (b0 + 256 * b1 + 65536 * b2 + 16777216 * b3) :: words fuel' rest
  | _, _ => []
  end.

(** One of the 64 operations on a block [M] of 16 words. *)
Definition step (M : list Z) (st : state) (i : Z) : state :=
  let '(A, B, C, D) := st in
  let '(F, g) :=
    if i <? 16 then (Z.lor (Z.land B C) (Z.land (not32 B) D), i)
    else if i <? 32 then
      (Z.lor (Z.land D B) (Z.land (not32 D) C), (5 * i + 1) mod 16)
    else if i <? 48 then (Z.lxor B (Z.lxor C D), (3 * i + 5) mod 16)
    else (Z.lxor C (Z.lor B (not32 D)), (7 * i) mod 16) in
  let F' :=
    add32 (add32 (add32 F A) (nth (Z.to_nat i) K 0)) (nth (Z.to_nat g) M 0) in
  (D, add32 B (rotl32 F' (nth (Z.to_nat i) S 0)), B, C).

Definition rounds : list Z := map Z.of_nat (seq 0 64).

Definition block (st : state) (M : list Z) : state :=
  let '(a0, b0, c0, d0) := st in
  let '(A, B, C, D) := fold_left (step M) rounds st in
  (add32 a0 A, add32 b0 B, add32 c0 C, add32 d0 D).

(** The 16-word blocks of a word sequence. *)
Fixpoint blocks (fuel : nat) (ws : list Z) : list (list Z) :=
  match fuel, ws with
  | Datatypes.S fuel', _ :: _ => firstn 16 ws :: blocks fuel' (skipn 16 ws)
  | _, _ => []
  end.

Definition digest_state (msg : list Z) : state :=
  let padded := pad msg in
  let ws := words (List.length padded) padded in
  fold_left block (blocks (List.length ws) ws) init.

Definition hex_digit (n : Z) : ascii :=
  nth (Z.to_nat n) (list_ascii_of_string "0123456789abcdef") "0"%char.

Definition hex_byte (b : Z) (rest : string) : string :=
  String (hex_digit (b / 16 mod 16)) (String (hex_digit (b mod 16)) rest).

Definition hex_word (x : Z) (rest : string) : string :=
  hex_byte (x mod 256)
    (hex_byte (x / 256 mod 256)
       (hex_byte (x / 65536 mod 256)
          (hex_byte (x / 16777216 mod 256) rest))).

Definition hexdigest (msg : list Z) : string :=
  let '(a, b, c, d) := digest_state msg in
  hex_word a (hex_word b (hex_word c (hex_word d ""))).

End MD5.

(** [get_str_hash(source_str)]: the MD5 hex digest of the string's UTF-8
    bytes.  A [string] here is the byte sequence itself. *)
Definition get_str_hash (source_str : string) : string :=
  MD5.hexdigest (MD5.bytes_of_string source_str).


(** ** Syntax trees, as the [ast] module builds them *)

(** Expression nodes.  Field names are those of the [ast] classes. *)
Inductive expr : Type :=
| Num (n : pynum)
| Str (s : string)
| Name (id : string)
| Tuple (elts : list expr)
| ListE (elts : list expr)
| Dict (keys values : list expr)
| Call (func : expr) (args : list expr)
| Attribute (value : expr) (attr : string)
| Subscript (value : expr) (slice : expr)
| BinOp (left : expr) (op : string) (right : expr)
| UnaryOp (op : string) (operand : expr).

(** Statement nodes.  [Assign] and [Delete] are the two classes with a
    [targets] field; compound statements carry their bodies. *)
Inductive stmt : Type :=
| Assign (targets : list expr) (value : expr)
| Delete (targets : list expr)
| AugAssign (target : expr) (op : string) (value : expr)
| Expr (value : expr)
| Import (names : list string)
| Pass
| FunctionDef (name : string) (args : list string) (body : list stmt)
| ClassDef (name : string) (bases : list expr) (body : list stmt)
| If (test : expr) (body orelse : list stmt)
| For (target iter : expr) (body orelse : list stmt)
| While (test : expr) (body orelse : list stmt)
| With (context_expr : expr) (body : list stmt)
| TryExcept (body handlers orelse : list stmt).

(** The root node: [ast.parse] returns a [Module]. *)
Inductive module_node : Type :=
| Mod (body : list stmt).

(** [ast.iter_child_nodes] of the root: its statements, in document order. *)
Definition iter_child_nodes (tree : module_node) : list stmt :=
  match tree with
  | Mod body => body
  end.

(** Python values a literal evaluates to.  A dict is its key/value pairs. *)
Inductive value : Type :=
| VNone
| VBool (b : bool)
| VNum (n : pynum)
| VStr (s : string)
| VTuple (items : list value)
| VList (items : list value)
| VDict (items : list (value * value)).

(** ** The library functions the code calls *)

(** What the module takes from the Python runtime: file reading, the parser
    and the literal evaluator of [ast], [re.search] with [re.IGNORECASE],
    and [str] of a float.  A [pattern] is a regular expression that compiles,
    so that [re.search] returns a match or [None] and does not raise. *)
Class Runtime : Type := {
  file : Type;
  open_r : string -> result file;
  file_read : file -> result string;
  ast_parse : string -> result module_node;
  ast_literal_eval : expr -> result value;
  pattern : Type;
  re_search_ignorecase : pattern -> string -> bool;
  float_str : float -> string
}.

(** ** ScriptFileParser *)

Module ScriptFileParser.

Section Parser.

Context `{RT : Runtime}.

(** The instance: [file_addr] is set first; [ast_tree] is set only when the
    file was read and parsed. *)
Record t : Type := Self { file_addr : string; ast_tree : option module_node }.

(** ['Error parsing script file: {} | {}'.format(self.file_addr, err)] *)
Definition init_message (addr : string) (err : exn) : string :=
  "Error parsing script file: " ++ addr ++ " | " ++ exn_str err.

(** ['Error parsing parameter: {} in script file for : {} | {}'] *)
Definition param_message (param_name addr : string) (err : exn) : string :=
  "Error parsing parameter: " ++ param_name ++ " in script file for : "
  ++ addr ++ " | " ++ exn_str err.

(** [with open(file_address, 'r') as f: ... ast.parse(f.read())] *)
Definition read_and_parse (file_address : string) : result module_node :=
  (f <- open_r file_address ;;
   text <- file_read f ;;
   ast_parse text)%result.

(** [__init__]: the state of [self] when it ends, and how it ends.  Every
    exception of the [try] block is caught and replaced. *)
Definition init (file_address : string) : t * result unit :=
  let self := Self file_address None in
  match read_and_parse file_address with
  | Return tree => (Self (file_addr self) (Some tree), Return tt)
  | Raise err =>
      (self, Raise (Exn PyRevitException (init_message (file_addr self) err)))
  end.

(** [ScriptFileParser(file_address)]: the caller gets the instance only when
    [__init__] returns. *)
Definition new (file_address : string) : result t :=
  let (self, r) := init file_address in
  (_ <- r ;; Return self)%result.

(** [hasattr(child, 'targets')], with the list when it is there. *)
Definition stmt_targets (child : stmt) : option (list expr) :=
  match child with
  | Assign targets _ => Some targets
  | Delete targets => Some targets
  | _ => None
  end.

(** [hasattr(target, 'id') and target.id == param_name] *)
Definition is_id (param_name : string) (target : expr) : bool :=
  match target with
  | Name id => String.eqb id param_name
  | _ => false
  end.

(** [child.value] for a node that has [targets]: a [Delete] node has no such
    attribute. *)
Definition stmt_value (child : stmt) : result expr :=
  match child with
  | Assign _ value => Return value
  | AugAssign _ _ value => Return value
  | Expr value => Return value
  | Delete _ =>
      Raise (Exn AttributeError "'Delete' object has no attribute 'value'")
  | _ => Raise (Exn AttributeError "object has no attribute 'value'")
  end.

(** The two nested loops of [extract_param]: [Some r] when a [return] (or an
    exception) ends them at a matching target, [None] when they run out. *)
Fixpoint scan (children : list stmt) (param_name : string)
  : option (result value) :=
  match children with
  | [] => None
  | child :: rest =>
      match stmt_targets child with
      | Some targets =>
          if existsb (is_id param_name) targets
          then Some (v <- stmt_value child ;; ast_literal_eval v)%result
          else scan rest param_name
      | None => scan rest param_name
      end
  end.

(** The [try] block: reading [self.ast_tree] is part of it. *)
Definition try_block (self : t) (param_name : string)
  : option (result value) :=
  match ast_tree self with
  | None =>
      Some (Raise (Exn AttributeError
        "ScriptFileParser instance has no attribute 'ast_tree'"))
  | Some tree => scan (iter_child_nodes tree) param_name
  end.

(** [extract_param]: a value returned in the loop, any exception wrapped, and
    [None] after the loop. *)
Definition extract_param (self : t) (param_name : string) : result value :=
  match try_block self param_name with
  | Some (Return v) => Return v
  | Some (Raise err) =>
      Raise (Exn PyRevitException
               (param_message param_name (file_addr self) err))
  | None => Return VNone
  end.

End Parser.

End ScriptFileParser.

(** ** Directory trees *)

(** A file system entry with what the calls of the walk return for it:
    [os.path.getmtime] (a float, or the error it raises) and, for a directory,
    [os.listdir] (the entries, in the order the system lists them, or the
    error it raises).  [islink] marks a symbolic link to a directory. *)
Inductive node : Type :=
| File (name : string) (mtime : result float)
| Dir (name : string) (islink : bool) (mtime : result float)
      (listing : result (list node)).

(** [os.path.basename] of the path of an entry.  For the start directory
    this is the base name of [dir_path]. *)
Definition basename (n : node) : string :=
  match n with
  | File name _ => name
  | Dir name _ _ _ => name
  end.

Definition getmtime (n : node) : result float :=
  match n with
  | File _ mtime => mtime
  | Dir _ _ mtime _ => mtime
  end.

Definition isdir (n : node) : bool :=
  match n with
  | File _ _ => false
  | Dir _ _ _ _ => true
  end.

Definition is_link (n : node) : bool :=
  match n with
  | File _ _ => false
  | Dir _ l _ _ => l
  end.

(** [os.listdir]: it raises on what is not a directory. *)
Definition listdir (n : node) : result (list node) :=
  match n with
  | File _ _ => Raise (Exn OSError "[Errno 20] Not a directory")
  | Dir _ _ _ listing => listing
  end.

(** What [os.walk] yields for one directory.  [root] is the directory and
    [dirs], [files] the entries of its listing: a path [join(root, name)]
    that the code builds denotes the entry itself. *)
Record walk_item : Type :=
  Item { root : node; dirs : list node; files : list node }.

(** [os.walk(top)], with its defaults [topdown=True], [onerror=None],
    [followlinks=False]: a directory that cannot be listed yields nothing
    (the error is dropped), entries are split by [isdir], and the walk
    recurses into every entry of [dirs] that is not a link. *)
Fixpoint os_walk (top : node) : list walk_item :=
  match top with
  | File _ _ => []
  | Dir _ _ _ (Raise _) => []
  | Dir _ _ _ (Return names) =>
      Item top (filter isdir names) (filter (fun n => negb (isdir n)) names)
      :: flat_map
           (fun c =>
              match c with
              | Dir _ false _ _ => os_walk c
              | _ => []
              end)
           names
  end.

(** ** calculate_dir_hash *)

Section Fingerprint.

Context `{RT : Runtime}.

(** [str(mtime_sum)] *)
Definition py_str (n : pynum) : string :=
  match n with
  | PyInt z => str_int z
  | PyFloat f => float_str f
  end.

(** The inner loop, [for filename in files]. *)
Fixpoint files_loop (file_filter : pattern) (fs : list node)
    (mtime_sum : pynum) : result pynum :=
  match fs with
  | [] => Return mtime_sum
  | filename :: rest =>
      if re_search_ignorecase file_filter (basename filename)
      then (modtime <- getmtime filename ;;
            files_loop file_filter rest (add_float mtime_sum modtime))%result
      else files_loop file_filter rest mtime_sum
  end.

(** The outer loop, [for root, dirs, files in os.walk(dir_path)]. *)
Fixpoint walk_loop (dir_filter file_filter : pattern)
    (items : list walk_item) (mtime_sum : pynum) : result pynum :=
  match items with
  | [] => Return mtime_sum
  | item :: rest =>
      if re_search_ignorecase dir_filter (basename (root item))
      then (m <- getmtime (root item) ;;
            s <- files_loop file_filter (files item) (add_float mtime_sum m) ;;
            walk_loop dir_filter file_filter rest s)%result
      else walk_loop dir_filter file_filter rest mtime_sum
  end.

Definition calculate_dir_hash (dir_path : node)
    (dir_filter file_filter : pattern) : result string :=
  (mtime_sum <-
     walk_loop dir_filter file_filter (os_walk dir_path) (PyInt 0) ;;
   Return (get_str_hash (py_str mtime_sum)))%result.

(** *** The timestamps that are read, as a list *)

(** The entries whose timestamp one directory of the walk makes the code
    read, in the order of the reads. *)
Definition item_reads (dir_filter file_filter : pattern) (item : walk_item)
  : list node :=
  if re_search_ignorecase dir_filter (basename (root item))
  then root item
       :: filter (fun f => re_search_ignorecase file_filter (basename f))
            (files item)
  else [].

Definition mtime_reads (dir_filter file_filter : pattern) (top : node)
  : list node :=
  flat_map (item_reads dir_filter file_filter) (os_walk top).

(** Reading the timestamps of a list of entries in turn and adding each to
    the sum; the first failing read ends it. *)
Fixpoint sum_mtimes (ns : list node) (mtime_sum : pynum) : result pynum :=
  match ns with
  | [] => Return mtime_sum
  | n :: rest =>
      (m <- getmtime n ;; sum_mtimes rest (add_float mtime_sum m))%result
  end.

End Fingerprint.

(** The directories the walk reaches from [top]: [top] itself when it can be
    listed, and what the walk reaches from any entry of a listing that is a
    directory and not a link.  No pattern takes part. *)
Inductive visits : node -> node -> Prop :=
| visits_top name l m names :
    visits (Dir name l m (Return names)) (Dir name l m (Return names))
| visits_sub name l m names c d :
    In c names -> isdir c = true -> is_link c = false ->
    visits c d ->
    visits (Dir name l m (Return names)) d.

(** The entries of a directory's listing ([[]] when there is none). *)
Definition entries (d : node) : list node :=
  match d with
  | Dir _ _ _ (Return names) => names
  | _ => []
  end.

(** Two trees that differ only in the order in which directories list their
    entries. *)
Inductive reordered : node -> node -> Prop :=
| reordered_file name m : reordered (File name m) (File name m)
| reordered_unlisted name l m e :
    reordered (Dir name l m (Raise e)) (Dir name l m (Raise e))
| reordered_dir name l m names names' names'' :
    Forall2 reordered names names' ->
    Permutation names' names'' ->
    reordered (Dir name l m (Return names)) (Dir name l m (Return names'')).

(** Induction on a tree, with the hypothesis for every entry of a listing. *)
Fixpoint node_listing_ind (P : node -> Prop)
    (HFile : forall name m, P (File name m))
    (HUnlisted : forall name l m e, P (Dir name l m (Raise e)))
    (HDir : forall name l m names,
        Forall P names -> P (Dir name l m (Return names)))
    (n : node) {struct n} : P n :=
  match n with
  | File name m => HFile name m
  | Dir name l m (Raise e) => HUnlisted name l m e
  | Dir name l m (Return names) =>
      HDir name l m names
        ((fix all (ns : list node) : Forall P ns :=
            match ns with
            | [] => Forall_nil P
            | c :: cs =>
                Forall_cons c
                  (node_listing_ind P HFile HUnlisted HDir c) (all cs)
            end) names)
  end.

(** ** A runtime to compute with

    The functions of CPython 2.7 that [Runtime] asks for, written out as far
    as the examples below need them. *)

Module FloatStr.

(** The quotient of two positive numbers, rounded half to even. *)
Definition div_half_even (num den : Z) : Z :=
  let q := num / den in
  let r := num mod den in
  match 2 * r ?= den with
  | Lt => q
  | Gt => q + 1
  | Eq => if Z.even q then q else q + 1
  end.

(** [num / den * 10 ^ k], rounded, for either sign of [k]. *)
Definition scaled (num den k : Z) : Z :=
  if 0 <=? k then div_half_even (num * 10 ^ k) den
  else div_half_even num (den * 10 ^ (- k)).

(** The exponent [x] with [10 ^ x <= num / den < 10 ^ (x + 1)], searched
    downwards from an estimate that is never too small. *)
Definition floor_log10 (num den : Z) : Z :=
  let x0 := Z.log2 num - Z.log2 den in
  let le_pow (x : Z) : bool :=
    if 0 <=? x then den * 10 ^ x <=? num else den <=? num * 10 ^ (- x) in
  let hi :=
    (if 0 <=? x0 + 1 then (x0 + 1) * 31 / 100 else (x0 + 1) * 30 / 100) + 1 in
  (fix search (fuel : nat) (x : Z) : Z :=
     match fuel with
     | O => x
     | S fuel' => if le_pow x then x else search fuel' (x - 1)
     end) 64%nat hi.

Fixpoint strip_zeros (l : list ascii) : list ascii :=
  match l with
  | "0"%char :: rest => strip_zeros rest
  | _ => l
  end.

Definition strip_trailing_zeros (s : string) : string :=
  string_of_list_ascii (rev (strip_zeros (rev (list_ascii_of_string s)))).

Definition zeros (n : Z) : string :=
  string_of_list_ascii (repeat "0"%char (Z.to_nat n)).

Definition with_fraction (int_part frac : string) : string :=
  match frac with
  | EmptyString => int_part
  | _ => int_part ++ "." ++ frac
  end.

(** ['%.12g'] of the positive number [num / den]: twelve significant digits,
    exponent form when the exponent is below -4 or at least 12, trailing
    zeros dropped. *)
Definition format_g12 (num den : Z) : string :=
  let x0 := floor_log10 num den in
  let n0 := scaled num den (11 - x0) in
  let '(n, x) := if 10 ^ 12 <=? n0 then (n0 / 10, x0 + 1) else (n0, x0) in
  let digits := str_int n in
  if (x <? -4) || (12 <=? x) then
    with_fraction (substring 0 1 digits)
                  (strip_trailing_zeros (substring 1 11 digits))
    ++ "e" ++ (if x <? 0 then "-" else "+")
    ++ (if Z.abs x <? 10 then "0" else "") ++ str_int (Z.abs x)
  else if 0 <=? x then
    with_fraction (substring 0 (Z.to_nat (x + 1)) digits)
      (strip_trailing_zeros
         (substring (Z.to_nat (x + 1)) (Z.to_nat (11 - x)) digits))
  else
    "0." ++ zeros (- x - 1) ++ strip_trailing_zeros digits.

Definition is_digit_or_minus (c : ascii) : bool :=
  let n := Z.of_N (N_of_ascii c) in
  ((48 <=? n) && (n <=? 57)) || Ascii.eqb c "-"%char.

(** [.0] is appended to a result that reads as an integer. *)
Definition add_dot_0 (s : string) : string :=
  if forallb is_digit_or_minus (list_ascii_of_string s)
  then s ++ ".0" else s.

(** [str(f)] for a float in Python 2. *)
Definition float_str_py2 (f : float) : string :=
  match Prim2SF f with
  | S754_nan => "nan"
  | S754_infinity s => if s then "-inf" else "inf"
  | S754_zero s => if s then "-0.0" else "0.0"
  | S754_finite s m e =>
      let body :=
        if 0 <=? e then format_g12 (Zpos m * 2 ^ e) 1
        else format_g12 (Zpos m) (2 ^ (- e)) in
      add_dot_0 ((if s then "-" else "") ++ body)
  end.

End FloatStr.

Module Sample.

(** *** [ast.literal_eval], after [ast.py] of Python 2.7 (complex literals
    left out) *)

Definition malformed {A : Type} : result A :=
  Raise (Exn ValueError "malformed string").

(** Lists and dicts cannot be dict keys. *)
Fixpoint hashable (v : value) : bool :=
  match v with
  | VList _ | VDict _ => false
  | VTuple items => forallb hashable items
  | _ => true
  end.

(** The elements of a tuple or list, converted from left to right. *)
Fixpoint convert_all (rs : list (result value)) : result (list value) :=
  match rs with
  | [] => Return []
  | r :: rest =>
      (v <- r ;; vs <- convert_all rest ;; Return (v :: vs))%result
  end.

(** The items of a dict, converted and inserted pair by pair. *)
Fixpoint convert_items (rs : list (result value * result value))
  : result (list (value * value)) :=
  match rs with
  | [] => Return []
  | (rk, rv) :: rest =>
      (key <- rk ;;
       val <- rv ;;
       if hashable key
       then (items <- convert_items rest ;; Return ((key, val) :: items))
       else Raise (Exn TypeError "unhashable type"))%result
  end.

Fixpoint literal_eval (node : expr) : result value :=
  match node with
  | Str s => Return (VStr s)
  | Num n => Return (VNum n)
  | Tuple elts =>
      (vs <- convert_all (map literal_eval elts) ;; Return (VTuple vs))%result
  | ListE elts =>
      (vs <- convert_all (map literal_eval elts) ;; Return (VList vs))%result
  | Dict keys values =>
      (items <- convert_items
                  (combine (map literal_eval keys) (map literal_eval values)) ;;
       Return (VDict items))%result
  | Name id =>
      if String.eqb id "None" then Return VNone
      else if String.eqb id "True" then Return (VBool true)
      else if String.eqb id "False" then Return (VBool false)
      else malformed
  | _ => malformed
  end.

(** *** [re.search] for a pattern without metacharacters: the pattern occurs
    in the string, letter case ignored *)

Definition lower (c : ascii) : ascii :=
  let n := N_of_ascii c in
  if ((65 <=? n) && (n <=? 90))%N then ascii_of_N (n + 32) else c.

Fixpoint lower_string (s : string) : string :=
  match s with
  | EmptyString => EmptyString
  | String c rest => String (lower c) (lower_string rest)
  end.

Fixpoint occurs (pat s : string) : bool :=
  prefix pat s
  || match s with
     | EmptyString => false
     | String _ rest => occurs pat rest
     end.

Definition literal_search (pat s : string) : bool :=
  occurs (lower_string pat) (lower_string s).

(** *** Script files *)

Definition nl : string := String (ascii_of_nat 10) EmptyString.

Definition lookup {A : Type} (key : string) (table : list (string * A))
  : option A :=
  option_map snd (find (fun kv => String.eqb (fst kv) key) table).

Definition one : expr := Num (PyInt 1).
Definition two : expr := Num (PyInt 2).

(** Source texts with the trees [ast.parse] builds for them. *)
Definition sources : list (string * module_node) :=
  [ ("x = 1" ++ nl ++ "x = 2" ++ nl,
     Mod [Assign [Name "x"] one; Assign [Name "x"] two]);
    ("def f():" ++ nl ++ "    x = 1" ++ nl,
     Mod [FunctionDef "f" [] [Assign [Name "x"] one]]);
    ("x = some_function()" ++ nl,
     Mod [Assign [Name "x"] (Call (Name "some_function") [])]);
    ("x = None" ++ nl, Mod [Assign [Name "x"] (Name "None")]);
    ("y = 1" ++ nl, Mod [Assign [Name "y"] one]);
    ("import x" ++ nl ++ "del x" ++ nl, Mod [Import ["x"]; Delete [Name "x"]])
  ].

(** Any other text is rejected. *)
Definition parse (text : string) : result module_node :=
  match lookup text sources with
  | Some tree => Return tree
  | None => Raise (Exn SyntaxError "invalid syntax (<unknown>, line 1)")
  end.

(** The files that exist, with their contents. *)
Definition disk : list (string * string) :=
  [ ("twice.py", "x = 1" ++ nl ++ "x = 2" ++ nl);
    ("nested.py", "def f():" ++ nl ++ "    x = 1" ++ nl);
    ("call.py", "x = some_function()" ++ nl);
    ("none.py", "x = None" ++ nl);
    ("other.py", "y = 1" ++ nl);
    ("del.py", "import x" ++ nl ++ "del x" ++ nl);
    ("broken.py", "x = (1," ++ nl)
  ].

Definition open_file (path : string) : result string :=
  match lookup path disk with
  | Some text => Return text
  | None =>
      Raise (Exn IOError
               ("[Errno 2] No such file or directory: '" ++ path ++ "'"))
  end.

#[export] Instance runtime : Runtime := {|
  file := string;
  open_r := open_file;
  file_read := fun text => Return text;
  ast_parse := parse;
  ast_literal_eval := literal_eval;
  pattern := string;
  re_search_ignorecase := literal_search;
  float_str := FloatStr.float_str_py2
|}.

End Sample.

(** * Properties of ScriptFileParser *)

Module ParserFacts.

Import ScriptFileParser.

(** [child] is a top-level statement with a [targets] list that holds the
    identifier [param_name]: what the test of the inner loop looks for. *)
Definition targets_name (param_name : string) (child : stmt) : bool :=
  match stmt_targets child with
  | Some targets => existsb (is_id param_name) targets
  | None => false
  end.

(** A statement without its nested blocks. *)
Definition strip_bodies (s : stmt) : stmt :=
  match s with
  | FunctionDef name args _ => FunctionDef name args []
  | ClassDef name bases _ => ClassDef name bases []
  | If test _ _ => If test [] []
  | For target iter _ _ => For target iter [] []
  | While test _ _ => While test [] []
  | With context_expr _ => With context_expr []
  | TryExcept _ _ _ => TryExcept [] [] []
  | _ => s
  end.

(** How [extract_param] ends once the [try] block has produced [r]. *)
Definition wrapped (param_name addr : string) (r : result value)
  : result value :=
  match r with
  | Return v => Return v
  | Raise err =>
      Raise (Exn PyRevitException (param_message param_name addr err))
  end.

(** No statement of [body] itself carries [param_name] among its targets:
    none assigns it and none deletes it.  Nested blocks are not looked at. *)
Definition absent_in (param_name : string) (body : list stmt) : bool :=
  forallb (fun s => negb (targets_name param_name s)) body.

(** A parsed script as an instance holds it. *)
Definition parsed (addr : string) (body : list stmt) : ScriptFileParser.t :=
  Self addr (Some (Mod body)).

Section Facts.

Context `{RT : Runtime}.

Lemma absent_in_Forall (param_name : string) (body : list stmt) :
  absent_in param_name body = true ->
  Forall (fun s => targets_name param_name s = false) body.
Proof.
  unfold absent_in; rewrite forallb_forall, Forall_forall.
  intros H s Hs; apply negb_true_iff, H, Hs.
Qed.

Lemma scan_skip (pre rest : list stmt) (param_name : string) :
  Forall (fun s => targets_name param_name s = false) pre ->
  scan (pre ++ rest) param_name = scan rest param_name.
Proof.
  induction 1 as [|s pre Hs _ IH]; simpl; [reflexivity|].
  unfold targets_name in Hs.
  destruct (stmt_targets s) as [targets|]; [rewrite Hs|]; exact IH.
Qed.

Lemma scan_hit (child : stmt) (rest : list stmt) (param_name : string) :
  targets_name param_name child = true ->
  scan (child :: rest) param_name
  = Some (v <- stmt_value child ;; ast_literal_eval v)%result.
Proof.
  unfold targets_name; simpl.
  destruct (stmt_targets child) as [targets|]; [|discriminate].
  intros ->; reflexivity.
Qed.

Lemma scan_absent (body : list stmt) (param_name : string) :
  Forall (fun s => targets_name param_name s = false) body ->
  scan body param_name = None.
Proof.
  intros H.
  rewrite <- (app_nil_r body).
  rewrite (scan_skip body [] param_name H); reflexivity.
Qed.

Lemma scan_strip (body : list stmt) (param_name : string) :
  scan (map strip_bodies body) param_name = scan body param_name.
Proof.
  induction body as [|s body IH]; simpl; [reflexivity|].
  destruct s; simpl; rewrite IH; reflexivity.
Qed.

Lemma scan_same_top (body body' : list stmt) (param_name : string) :
  map strip_bodies body = map strip_bodies body' ->
  scan body param_name = scan body' param_name.
Proof.
  intros H.
  rewrite <- (scan_strip body), <- (scan_strip body'), H; reflexivity.
Qed.

(** The first statement that carries the name decides the result. *)
Lemma extract_param_first (addr : string) (pre post : list stmt)
    (child : stmt) (param_name : string) :
  Forall (fun s => targets_name param_name s = false) pre ->
  targets_name param_name child = true ->
  extract_param (Self addr (Some (Mod (pre ++ child :: post)))) param_name
  = wrapped param_name addr
      (v <- stmt_value child ;; ast_literal_eval v)%result.
Proof.
  intros Hpre Hchild.
  unfold extract_param, try_block; simpl.
  rewrite (scan_skip pre _ _ Hpre), (scan_hit _ _ _ Hchild).
  destruct (stmt_value child) as [e|v]; simpl; [reflexivity|].
  destruct (ast_literal_eval v); reflexivity.
Qed.

Lemma extract_param_absent (addr : string) (body : list stmt)
    (param_name : string) :
  Forall (fun s => targets_name param_name s = false) body ->
  extract_param (Self addr (Some (Mod body))) param_name = Return VNone.
Proof.
  intros H.
  unfold extract_param, try_block; simpl.
  rewrite (scan_absent _ _ H); reflexivity.
Qed.

(** A right-hand side that does not evaluate as a literal: the error of the
    first assignment to the name is wrapped with the name and the file. *)
Lemma extract_param_not_literal (addr : string) (pre post : list stmt)
    (targets : list expr) (v : expr) (param_name : string) (err : exn) :
  Forall (fun s => targets_name param_name s = false) pre ->
  existsb (is_id param_name) targets = true ->
  ast_literal_eval v = Raise err ->
  extract_param (Self addr (Some (Mod (pre ++ Assign targets v :: post))))
    param_name
  = Raise (Exn PyRevitException (param_message param_name addr err)).
Proof.
  intros Hpre Htargets Herr.
  rewrite (extract_param_first addr pre post (Assign targets v) param_name
             Hpre Htargets).
  simpl; rewrite Herr; reflexivity.
Qed.

(** A [del] of the name before any assignment to it: the query raises. *)
Lemma extract_param_deleted (addr : string) (pre post : list stmt)
    (targets : list expr) (param_name : string) :
  Forall (fun s => targets_name param_name s = false) pre ->
  existsb (is_id param_name) targets = true ->
  raises
    (extract_param (Self addr (Some (Mod (pre ++ Delete targets :: post))))
       param_name) = true.
Proof.
  intros Hpre Htargets.
  rewrite (extract_param_first addr pre post (Delete targets) param_name
             Hpre Htargets).
  reflexivity.
Qed.

(** What [__init__] does when reading and parsing raise [err]. *)
Lemma init_failure (addr : string) (err : exn) :
  read_and_parse addr = Raise err ->
  init addr
  = (Self addr None, Raise (Exn PyRevitException (init_message addr err))).
Proof. unfold init; intros ->; reflexivity. Qed.

Lemma new_failure (addr : string) (err : exn) :
  read_and_parse addr = Raise err ->
  new addr = Raise (Exn PyRevitException (init_message addr err)).
Proof. unfold new; intros H; rewrite (init_failure _ _ H); reflexivity. Qed.

(** C1 (as amended): the scan returns at the first top-level statement that
    carries the name among its targets.  When that statement is an
    assignment (no [del] of the name comes before it), the result is the
    literal value of this first assignment, or the wrapped error of its
    evaluation, whatever assignments to the same name follow it. *)
Theorem extract_param_first_assignment_wins
    (addr : string) (pre post : list stmt) (targets : list expr) (v : expr)
    (param_name : string) :
  absent_in param_name pre = true ->
  existsb (is_id param_name) targets = true ->
  extract_param (parsed addr (pre ++ Assign targets v :: post)) param_name
  = wrapped param_name addr (ast_literal_eval v).
Proof.
  intros Hpre Htargets.
  unfold parsed.
  rewrite (extract_param_first addr pre post (Assign targets v) param_name
             (absent_in_Forall _ _ Hpre) Htargets).
  reflexivity.
Qed.

(** X17: only the top-level statements are examined.  The result is the
    same for two scripts whose statements agree once their nested blocks
    (function, class and control-flow bodies) are removed; and when no
    top-level statement carries the name among its targets (it is neither
    assigned nor deleted at top level), the result is [None], whatever the
    nested blocks assign.  A top-level [del] of the name is another matter:
    see [extract_param_nested_then_del_raises]. *)
Theorem extract_param_top_level_only
    (addr : string) (body body' : list stmt) (param_name : string) :
  map strip_bodies body' = map strip_bodies body ->
  extract_param (parsed addr body') param_name
  = extract_param (parsed addr body) param_name
  /\ (absent_in param_name body = true ->
      extract_param (parsed addr body') param_name = Return VNone).
Proof.
  intros Hsame.
  assert (Heq : extract_param (parsed addr body') param_name
                = extract_param (parsed addr body) param_name).
  { unfold extract_param, try_block, parsed; simpl.
    rewrite (scan_same_top body' body param_name Hsame); reflexivity. }
  split; [exact Heq|].
  intros Habs; rewrite Heq.
  apply extract_param_absent, absent_in_Forall, Habs.
Qed.

(** C7: when the text of the file does not parse, [__init__] raises a
    [PyRevitException] whose message holds the file address and the text of
    the syntax error; [ast_tree] was never assigned, so the caller gets no
    instance, and a query on the abandoned object raises too. *)
Theorem init_syntax_error_is_atomic
    (addr : string) (f : file) (text : string) (err : exn)
    (param_name : string) :
  open_r addr = Return f ->
  file_read f = Return text ->
  ast_parse text = Raise err ->
  new addr
  = Raise (Exn PyRevitException
             ("Error parsing script file: " ++ addr ++ " | " ++ exn_str err))
  /\ ast_tree (fst (init addr)) = None
  /\ raises (extract_param (fst (init addr)) param_name) = true.
Proof.
  intros Hopen Hread Hparse.
  assert (Hfail : read_and_parse addr = Raise err).
  { unfold read_and_parse; rewrite Hopen; simpl.
    rewrite Hread; simpl; exact Hparse. }
  rewrite (new_failure _ _ Hfail), (init_failure _ _ Hfail).
  repeat split.
Qed.

(** X18: the literal [None] and "not found" are the same result.  A script
    whose first top-level statement with [x] among its targets is [x = None]
    (whatever follows it) and a script where no top-level statement has [x]
    among its targets (no assignment to it, no [del] of it) both give
    [None].  A top-level [del] of the name is another matter: see
    [extract_param_del_then_none_raises]. *)
Theorem extract_param_none_is_not_found
    (addr addr' : string) (pre post body : list stmt) (x : string) :
  ast_literal_eval (Name "None") = Return VNone ->
  absent_in x pre = true ->
  absent_in x body = true ->
  extract_param (parsed addr (pre ++ Assign [Name x] (Name "None") :: post)) x
  = Return VNone
  /\ extract_param (parsed addr' body) x = Return VNone.
Proof.
  intros Hnone Hpre Hbody.
  split.
  - unfold parsed.
    rewrite (extract_param_first addr pre post _ x
               (absent_in_Forall _ _ Hpre)).
    + simpl; rewrite Hnone; reflexivity.
    + unfold targets_name; simpl; rewrite String.eqb_refl; reflexivity.
  - apply extract_param_absent, absent_in_Forall, Hbody.
Qed.

(** C10: whichever of opening, reading or parsing raises, [__init__] raises
    the same [PyRevitException], with the same message layout; the class of
    the error tells the caller nothing about which step failed. *)
Theorem init_wraps_every_failure (addr : string) (err : exn) :
  open_r addr = Raise err
  \/ (exists f, open_r addr = Return f
       /\ (file_read f = Raise err
           \/ exists text, file_read f = Return text
                /\ ast_parse text = Raise err)) ->
  new addr
  = Raise (Exn PyRevitException
             ("Error parsing script file: " ++ addr ++ " | " ++ exn_str err)).
Proof.
  intros H.
  apply new_failure.
  unfold read_and_parse.
  destruct H as [Hopen | (f & Hopen & [Hread | (text & Hread & Hparse)])];
    rewrite Hopen; simpl; [reflexivity | |]; rewrite Hread; simpl;
    [reflexivity | exact Hparse].
Qed.

End Facts.

End ParserFacts.

(** ** The parser on the sample files *)

Module ParserExamples.

Import ScriptFileParser ParserFacts Sample.

Definition twice : list stmt :=
  [Assign [Name "x"] one; Assign [Name "x"] two].

(** C1, as stated, fails: for [x = 1] followed by [x = 2] the query gives
    [1], the first assignment, and not [2]. *)
Lemma last_assignment_does_not_win :
  new "twice.py" = Return (parsed "twice.py" twice)
  /\ extract_param (parsed "twice.py" twice) "x" = Return (VNum (PyInt 1))
  /\ extract_param (parsed "twice.py" twice) "x" <> Return (VNum (PyInt 2)).
Proof.
  split; [vm_compute; reflexivity|].
  split; [vm_compute; reflexivity|].
  vm_compute; discriminate.
Qed.

Lemma extract_param_first_assignment_wins_witness :
  absent_in "x" [] = true
  /\ existsb (is_id "x") [Name "x"] = true
  /\ extract_param
       (parsed "twice.py"
          ([] ++ Assign [Name "x"] one :: [Assign [Name "x"] two])) "x"
     = wrapped "x" "twice.py" (ast_literal_eval one).
Proof.
  split; [reflexivity|].
  split; [reflexivity|].
  apply (extract_param_first_assignment_wins
           "twice.py" [] [Assign [Name "x"] two] [Name "x"] one "x");
    reflexivity.
Defined.

Definition nested : list stmt :=
  [FunctionDef "f" [] [Assign [Name "x"] one]].

Lemma extract_param_top_level_only_witness :
  map strip_bodies nested = map strip_bodies [FunctionDef "f" [] []]
  /\ absent_in "x" [FunctionDef "f" [] []] = true
  /\ new "nested.py" = Return (parsed "nested.py" nested)
  /\ extract_param (parsed "nested.py" nested) "x" = Return VNone.
Proof.
  split; [reflexivity|].
  split; [reflexivity|].
  split; [vm_compute; reflexivity|].
  apply (extract_param_top_level_only
           "nested.py" [FunctionDef "f" [] []] nested "x");
    reflexivity.
Defined.

(** [x = some_function()]: the right-hand side is no literal and the query
    raises, with the name, the file and the cause in the message. *)
Example extract_param_call_raises :
  new "call.py"
  = Return (parsed "call.py"
              [Assign [Name "x"] (Call (Name "some_function") [])])
  /\ extract_param
       (parsed "call.py"
          [Assign [Name "x"] (Call (Name "some_function") [])]) "x"
     = Raise (Exn PyRevitException
                ("Error parsing parameter: x in script file for : call.py | "
                 ++ "malformed string")).
Proof. split; vm_compute; reflexivity. Qed.

(** C6: [del x] is a top-level statement with [targets] and without
    [value].  For the script [import x; del x], which has no assignment to
    [x], the query raises instead of returning [None]. *)
Lemma extract_param_del_raises :
  new "del.py" = Return (parsed "del.py" [Import ["x"]; Delete [Name "x"]])
  /\ extract_param (parsed "del.py" [Import ["x"]; Delete [Name "x"]]) "x"
     = Raise (Exn PyRevitException
                ("Error parsing parameter: x in script file for : del.py | "
                 ++ "'Delete' object has no attribute 'value'")).
Proof. split; vm_compute; reflexivity. Qed.

Lemma init_syntax_error_is_atomic_witness :
  open_r "broken.py" = Return ("x = (1," ++ nl)
  /\ file_read ("x = (1," ++ nl) = Return ("x = (1," ++ nl)
  /\ ast_parse ("x = (1," ++ nl)
     = Raise (Exn SyntaxError "invalid syntax (<unknown>, line 1)")
  /\ new "broken.py"
     = Raise (Exn PyRevitException
                ("Error parsing script file: broken.py | "
                 ++ "invalid syntax (<unknown>, line 1)"))
  /\ ast_tree (fst (init "broken.py")) = None
  /\ raises (extract_param (fst (init "broken.py")) "x") = true.
Proof.
  split; [reflexivity|].
  split; [reflexivity|].
  split; [reflexivity|].
  apply (init_syntax_error_is_atomic (RT := runtime)
           "broken.py" ("x = (1," ++ nl) ("x = (1," ++ nl)
           (Exn SyntaxError "invalid syntax (<unknown>, line 1)") "x");
    reflexivity.
Defined.

Lemma extract_param_none_is_not_found_witness :
  ast_literal_eval (Name "None") = Return VNone
  /\ absent_in "x" [] = true
  /\ absent_in "x" [Assign [Name "y"] one] = true
  /\ extract_param
       (parsed "none.py" ([] ++ Assign [Name "x"] (Name "None") :: [])) "x"
     = Return VNone
  /\ extract_param (parsed "other.py" [Assign [Name "y"] one]) "x"
     = Return VNone.
Proof.
  split; [reflexivity|].
  split; [reflexivity|].
  split; [reflexivity|].
  apply (extract_param_none_is_not_found
           "none.py" "other.py" [] [] [Assign [Name "y"] one] "x");
    reflexivity.
Defined.

Lemma init_wraps_every_failure_witness :
  open_r "missing.py"
  = Raise (Exn IOError "[Errno 2] No such file or directory: 'missing.py'")
  /\ new "missing.py"
     = Raise (Exn PyRevitException
                ("Error parsing script file: missing.py | "
                 ++ "[Errno 2] No such file or directory: 'missing.py'")).
Proof.
  split; [reflexivity|].
  apply (init_wraps_every_failure "missing.py"
           (Exn IOError "[Errno 2] No such file or directory: 'missing.py'")).
  left; reflexivity.
Defined.

End ParserExamples.

(** * Properties of calculate_dir_hash *)

Module FingerprintFacts.

(** What [os.walk] yields for a directory [d] that it lists. *)
Definition item_of (d : node) : walk_item :=
  Item d (filter isdir (entries d))
         (filter (fun n => negb (isdir n)) (entries d)).

(** The walk below one entry of a listing. *)
Definition sub_walk (c : node) : list walk_item :=
  match c with
  | Dir _ false _ _ => os_walk c
  | _ => []
  end.

(** Adding a sequence of [getmtime] results to a sum. *)
Fixpoint add_all (stamps : list (result float)) (acc : pynum)
  : result pynum :=
  match stamps with
  | [] => Return acc
  | r :: rest => (m <- r ;; add_all rest (add_float acc m))%result
  end.

Section Facts.

Context `{RT : Runtime}.

(** The results of the reads, in order. *)
Definition stamps (dir_filter file_filter : pattern) (top : node)
  : list (result float) :=
  map getmtime (mtime_reads dir_filter file_filter top).

(** The stamp a directory reads for one entry of its listing. *)
Definition file_stamp (file_filter : pattern) (c : node)
  : list (result float) :=
  if negb (isdir c) && re_search_ignorecase file_filter (basename c)
  then [getmtime c] else [].

Definition sub_stamps (dir_filter file_filter : pattern) (c : node)
  : list (result float) :=
  match c with
  | Dir _ false _ _ => stamps dir_filter file_filter c
  | _ => []
  end.

(** *** The loops as one sum over the reads *)

Lemma sum_mtimes_stamps (ns : list node) (acc : pynum) :
  sum_mtimes ns acc = add_all (map getmtime ns) acc.
Proof.
  revert acc; induction ns as [|n ns IH]; intros acc; simpl; [reflexivity|].
  destruct (getmtime n) as [e|m]; simpl; [reflexivity|apply IH].
Qed.

Lemma add_all_app (a b : list (result float)) (acc : pynum) :
  add_all (a ++ b) acc = (s <- add_all a acc ;; add_all b s)%result.
Proof.
  revert acc; induction a as [|r a IH]; intros acc; simpl; [reflexivity|].
  destruct r as [e|m]; simpl; [reflexivity|apply IH].
Qed.

Lemma sum_mtimes_app (a b : list node) (acc : pynum) :
  sum_mtimes (a ++ b) acc = (s <- sum_mtimes a acc ;; sum_mtimes b s)%result.
Proof.
  rewrite !sum_mtimes_stamps, map_app, add_all_app.
  destruct (add_all (map getmtime a) acc); simpl;
    [reflexivity|symmetry; apply sum_mtimes_stamps].
Qed.

Lemma files_loop_sum (file_filter : pattern) (fs : list node) (acc : pynum) :
  files_loop file_filter fs acc
  = sum_mtimes
      (filter (fun f => re_search_ignorecase file_filter (basename f)) fs) acc.
Proof.
  revert acc; induction fs as [|f fs IH]; intros acc; simpl; [reflexivity|].
  destruct (re_search_ignorecase file_filter (basename f)); simpl;
    [|apply IH].
  destruct (getmtime f) as [e|m]; simpl; [reflexivity|apply IH].
Qed.

Lemma walk_loop_sum (dir_filter file_filter : pattern)
    (items : list walk_item) (acc : pynum) :
  walk_loop dir_filter file_filter items acc
  = sum_mtimes (flat_map (item_reads dir_filter file_filter) items) acc.
Proof.
  revert acc; induction items as [|item items IH]; intros acc; simpl;
    [reflexivity|].
  rewrite sum_mtimes_app.
  unfold item_reads.
  destruct (re_search_ignorecase dir_filter (basename (root item))); simpl;
    [|apply IH].
  destruct (getmtime (root item)) as [e|m]; simpl; [reflexivity|].
  rewrite files_loop_sum.
  destruct (sum_mtimes _ (add_float acc m)); simpl; [reflexivity|apply IH].
Qed.

Lemma calculate_dir_hash_reads (top : node) (dir_filter file_filter : pattern) :
  calculate_dir_hash top dir_filter file_filter
  = (s <- add_all (stamps dir_filter file_filter top) (PyInt 0) ;;
     Return (get_str_hash (py_str s)))%result.
Proof.
  unfold calculate_dir_hash, stamps, mtime_reads.
  rewrite walk_loop_sum, sum_mtimes_stamps; reflexivity.
Qed.

Lemma raises_add_all (l : list (result float)) (acc : pynum) :
  raises (add_all l acc) = existsb raises l.
Proof.
  revert acc; induction l as [|r l IH]; intros acc; simpl; [reflexivity|].
  destruct r as [e|m]; simpl; [reflexivity|apply IH].
Qed.

Lemma raises_calculate_dir_hash (top : node)
    (dir_filter file_filter : pattern) :
  raises (calculate_dir_hash top dir_filter file_filter)
  = existsb raises (stamps dir_filter file_filter top).
Proof.
  rewrite calculate_dir_hash_reads, <- (raises_add_all _ (PyInt 0)).
  destruct (add_all _ _); reflexivity.
Qed.


(** *** The walk and the directories it visits *)

Lemma os_walk_dir (name : string) (l : bool) (m : result float)
    (names : list node) :
  os_walk (Dir name l m (Return names))
  = item_of (Dir name l m (Return names)) :: flat_map sub_walk names.
Proof. reflexivity. Qed.

Lemma sub_walk_In (c : node) (item : walk_item) :
  In item (sub_walk c) ->
  isdir c = true /\ is_link c = false /\ In item (os_walk c).
Proof.
  destruct c as [name m|name [|] m listing]; simpl; try contradiction.
  intros H; repeat split; exact H.
Qed.

Lemma sub_walk_real (c : node) :
  isdir c = true -> is_link c = false -> sub_walk c = os_walk c.
Proof.
  destruct c as [name m|name [|] m listing]; simpl; try discriminate.
  reflexivity.
Qed.

Lemma os_walk_visits (top : node) (item : walk_item) :
  In item (os_walk top) <-> exists d, visits top d /\ item = item_of d.
Proof.
  split.
  - revert item.
    induction top as [name m|name l m e|name l m names IH]
      using node_listing_ind; intros item; simpl; try contradiction.
    intros [<-|Hin].
    + eexists; split; [apply visits_top|reflexivity].
    + apply in_flat_map in Hin; destruct Hin as (c & Hc & Hitem).
      apply sub_walk_In in Hitem; destruct Hitem as (Hdir & Hlink & Hitem).
      rewrite Forall_forall in IH.
      destruct (IH c Hc item Hitem) as (d & Hd & ->).
      exists d; split; [|reflexivity].
      eapply visits_sub; eassumption.
  - intros (d & Hd & ->).
    induction Hd as [name l m names|name l m names c d Hc Hdir Hlink _ IH].
    + left; reflexivity.
    + rewrite os_walk_dir; right.
      apply in_flat_map; exists c; split; [exact Hc|].
      rewrite (sub_walk_real c Hdir Hlink); exact IH.
Qed.

(** The walk in terms of [listdir]: a failing listing yields nothing. *)
Lemma os_walk_listdir (top : node) :
  os_walk top
  = match listdir top with
    | Raise _ => []
    | Return names => item_of top :: flat_map sub_walk names
    end.
Proof. destruct top as [name m|name l m [e|names]]; reflexivity. Qed.

(** *** Which timestamps are read *)

Lemma mtime_reads_In (dir_filter file_filter : pattern) (top x : node) :
  In x (mtime_reads dir_filter file_filter top)
  <-> exists d,
        visits top d
        /\ re_search_ignorecase dir_filter (basename d) = true
        /\ (x = d
            \/ (In x (entries d) /\ isdir x = false
                /\ re_search_ignorecase file_filter (basename x) = true)).
Proof.
  unfold mtime_reads; rewrite in_flat_map; split.
  - intros (item & Hitem & Hx).
    apply os_walk_visits in Hitem; destruct Hitem as (d & Hd & ->).
    unfold item_reads in Hx; simpl in Hx.
    destruct (re_search_ignorecase dir_filter (basename d)) eqn:Hmatch;
      [|contradiction].
    exists d; split; [exact Hd|]; split; [exact Hmatch|].
    destruct Hx as [<-|Hx]; [left; reflexivity|right].
    apply filter_In in Hx; destruct Hx as (Hx & Hff).
    apply filter_In in Hx; destruct Hx as (Hx & Hfile).
    apply negb_true_iff in Hfile; auto.
  - intros (d & Hd & Hmatch & Hx).
    exists (item_of d); split; [apply os_walk_visits; eauto|].
    unfold item_reads; simpl; rewrite Hmatch.
    destruct Hx as [->|(Hx & Hfile & Hff)]; [left; reflexivity|right].
    apply filter_In; split; [|exact Hff].
    apply filter_In; split; [exact Hx|rewrite Hfile; reflexivity].
Qed.

(** When no visited directory matches, nothing is read. *)
Lemma mtime_reads_no_match (dir_filter file_filter : pattern) (top : node) :
  existsb (fun item => re_search_ignorecase dir_filter (basename (root item)))
    (os_walk top) = false ->
  mtime_reads dir_filter file_filter top = [].
Proof.
  unfold mtime_reads.
  induction (os_walk top) as [|item items IH]; simpl; [reflexivity|].
  intros H; apply orb_false_iff in H; destruct H as (Hitem & Hrest).
  unfold item_reads at 1; rewrite Hitem; simpl; apply IH, Hrest.
Qed.

(** *** Listing order *)

Lemma file_stamps_filter (file_filter : pattern) (names : list node) :
  map getmtime
    (filter (fun f => re_search_ignorecase file_filter (basename f))
       (filter (fun n => negb (isdir n)) names))
  = flat_map (file_stamp file_filter) names.
Proof.
  induction names as [|c names IH]; simpl; [reflexivity|].
  unfold file_stamp at 1.
  destruct (negb (isdir c)); simpl; [|exact IH].
  destruct (re_search_ignorecase file_filter (basename c)); simpl;
    rewrite IH; reflexivity.
Qed.

Lemma sub_stamps_walk (dir_filter file_filter : pattern) (c : node) :
  map getmtime (flat_map (item_reads dir_filter file_filter) (sub_walk c))
  = sub_stamps dir_filter file_filter c.
Proof. destruct c as [name m|name [|] m listing]; reflexivity. Qed.

Lemma stamps_dir (dir_filter file_filter : pattern) (name : string)
    (l : bool) (m : result float) (names : list node) :
  stamps dir_filter file_filter (Dir name l m (Return names))
  = ((if re_search_ignorecase dir_filter name
      then m :: flat_map (file_stamp file_filter) names else [])
     ++ flat_map (sub_stamps dir_filter file_filter) names)%list.
Proof.
  unfold stamps, mtime_reads.
  rewrite os_walk_dir; simpl flat_map; rewrite map_app; f_equal.
  - unfold item_reads; simpl.
    destruct (re_search_ignorecase dir_filter name); simpl; [|reflexivity].
    rewrite file_stamps_filter; reflexivity.
  - induction names as [|c names IH]; simpl; [reflexivity|].
    rewrite flat_map_app, map_app, IH, sub_stamps_walk; reflexivity.
Qed.


Lemma reordered_same (c c' : node) :
  reordered c c' ->
  basename c = basename c' /\ isdir c = isdir c'
  /\ is_link c = is_link c' /\ getmtime c = getmtime c'.
Proof. destruct 1; repeat split. Qed.

Lemma file_stamp_reordered (file_filter : pattern) (c c' : node) :
  reordered c c' -> file_stamp file_filter c = file_stamp file_filter c'.
Proof.
  intros H; apply reordered_same in H; destruct H as (Hb & Hd & _ & Hm).
  unfold file_stamp; rewrite Hb, Hd, Hm; reflexivity.
Qed.

Lemma flat_map_Forall2 {A B : Type} (f g : A -> list B) (xs ys : list A) :
  Forall2 (fun x y => Permutation (f x) (g y)) xs ys ->
  Permutation (flat_map f xs) (flat_map g ys).
Proof.
  induction 1 as [|x y xs ys Hxy _ IH]; simpl; [constructor|].
  apply Permutation_app; assumption.
Qed.

Lemma Forall2_impl_In {A B : Type} (P Q : A -> B -> Prop) (xs : list A)
    (ys : list B) :
  Forall (fun x => forall y, P x y -> Q x y) xs ->
  Forall2 P xs ys -> Forall2 Q xs ys.
Proof.
  intros Hall H; induction H as [|x y xs ys Hxy _ IH]; constructor.
  - inversion Hall; auto.
  - apply IH; inversion Hall; assumption.
Qed.

Lemma stamps_reordered (dir_filter file_filter : pattern) (t t' : node) :
  reordered t t' ->
  Permutation (stamps dir_filter file_filter t)
              (stamps dir_filter file_filter t').
Proof.
  revert t'.
  induction t as [name m|name l m e|name l m names IH]
    using node_listing_ind; intros t' H; inversion H; subst;
    try apply Permutation_refl.
  match goal with
  | Hall : Forall2 reordered names ?ns, Hperm : Permutation ?ns _ |- _ =>
      rename ns into mid; rename Hall into Hsub; rename Hperm into Hord
  end.
  rewrite !stamps_dir.
  apply Permutation_app.
  - destruct (re_search_ignorecase dir_filter name); [|constructor].
    apply perm_skip.
    transitivity (flat_map (file_stamp file_filter) mid).
    + apply flat_map_Forall2.
      eapply Forall2_impl; [|exact Hsub].
      intros c c' Hc; simpl.
      rewrite (file_stamp_reordered file_filter c c' Hc).
      apply Permutation_refl.
    + apply Permutation_flat_map, Hord.
  - transitivity (flat_map (sub_stamps dir_filter file_filter) mid).
    + apply flat_map_Forall2.
      eapply Forall2_impl_In; [|exact Hsub].
      eapply Forall_impl; [|exact IH].
      intros c IHc c' Hc; simpl.
      specialize (IHc c' Hc).
      destruct Hc as [cname cm|cname cl cm ce|cname cl cm ns ns' ns'' _ _];
        simpl; try apply Permutation_refl.
      destruct cl; [apply Permutation_refl|exact IHc].
    + apply Permutation_flat_map, Hord.
Qed.

Lemma existsb_Permutation {A : Type} (f : A -> bool) (xs ys : list A) :
  Permutation xs ys -> existsb f xs = existsb f ys.
Proof.
  induction 1 as [|x xs ys _ IH|x y xs|xs ys zs _ IH1 _ IH2]; simpl.
  - reflexivity.
  - rewrite IH; reflexivity.
  - destruct (f x), (f y); reflexivity.
  - rewrite IH1; exact IH2.
Qed.

(** *** The digest *)

Lemma get_str_hash_length (source_str : string) :
  String.length (get_str_hash source_str) = 32%nat.
Proof.
  unfold get_str_hash, MD5.hexdigest.
  destruct (MD5.digest_state _) as [[[a b] c] d]; reflexivity.
Qed.


(** C3 (as amended): the digest is a function of the sequence of timestamps
    that are read, so an unchanged tree gives the same digest again.  When
    directories list their entries in another order, the timestamps read
    are the same up to their order and the call fails or returns alike; the
    sum of these floats, and the digest, are not claimed to be the same. *)
Theorem fingerprint_of_reordered_tree
    (t t' : node) (dir_filter file_filter : pattern) :
  (stamps dir_filter file_filter t = stamps dir_filter file_filter t' ->
   calculate_dir_hash t dir_filter file_filter
   = calculate_dir_hash t' dir_filter file_filter)
  /\ (reordered t t' ->
      Permutation (stamps dir_filter file_filter t)
                  (stamps dir_filter file_filter t')
      /\ raises (calculate_dir_hash t dir_filter file_filter)
         = raises (calculate_dir_hash t' dir_filter file_filter)).
Proof.
  split.
  - intros Heq; rewrite !calculate_dir_hash_reads, Heq; reflexivity.
  - intros H.
    pose proof (stamps_reordered dir_filter file_filter t t' H) as Hperm.
    split; [exact Hperm|].
    rewrite !raises_calculate_dir_hash.
    apply existsb_Permutation, Hperm.
Qed.

(** C4: the walk reaches a directory through any chain of listed
    directories that are not links, whatever their names ([visits] knows no
    pattern).  A timestamp is read, and added to the sum, exactly for a
    visited directory whose base name matches [dir_filter] and for the files
    directly in such a directory whose names match [file_filter]; the digest
    is that of the sum of these reads. *)
Theorem walk_descends_and_filters_select
    (top : node) (dir_filter file_filter : pattern) :
  (forall d, visits top d <-> In d (map root (os_walk top)))
  /\ (forall x,
        In x (mtime_reads dir_filter file_filter top)
        <-> exists d,
              visits top d
              /\ re_search_ignorecase dir_filter (basename d) = true
              /\ (x = d
                  \/ (In x (entries d) /\ isdir x = false
                      /\ re_search_ignorecase file_filter (basename x)
                         = true)))
  /\ calculate_dir_hash top dir_filter file_filter
     = (s <- sum_mtimes (mtime_reads dir_filter file_filter top) (PyInt 0) ;;
        Return (get_str_hash (py_str s)))%result.
Proof.
  split; [|split].
  - intros d; rewrite in_map_iff; split.
    + intros Hd; exists (item_of d); split; [reflexivity|].
      apply os_walk_visits; eauto.
    + intros (item & <- & Hitem).
      apply os_walk_visits in Hitem; destruct Hitem as (d & Hd & ->).
      exact Hd.
  - intros x; apply mtime_reads_In.
  - unfold calculate_dir_hash, mtime_reads.
    rewrite walk_loop_sum; reflexivity.
Qed.

(** C8: when no visited directory has a matching base name, the sum is
    still the int [0] after the walk and the result is the MD5 digest of
    ["0"]; a digest has 32 hexadecimal digits. *)
Theorem no_matching_directory_gives_digest_of_zero
    (top : node) (dir_filter file_filter : pattern) :
  existsb (fun item => re_search_ignorecase dir_filter (basename (root item)))
    (os_walk top) = false ->
  walk_loop dir_filter file_filter (os_walk top) (PyInt 0) = Return (PyInt 0)
  /\ calculate_dir_hash top dir_filter file_filter
     = Return (get_str_hash "0")
  /\ get_str_hash "0" = "cfcd208495d565ef66e7dff9f98764da"
  /\ (forall source_str, String.length (get_str_hash source_str) = 32%nat).
Proof.
  intros H.
  assert (Hsum : walk_loop dir_filter file_filter (os_walk top) (PyInt 0)
                 = Return (PyInt 0)).
  { rewrite walk_loop_sum.
    fold (mtime_reads dir_filter file_filter top).
    rewrite (mtime_reads_no_match _ _ _ H); reflexivity. }
  split; [exact Hsum|]; split; [|split].
  - unfold calculate_dir_hash; rewrite Hsum; reflexivity.
  - vm_compute; reflexivity.
  - apply get_str_hash_length.
Qed.

End Facts.

End FingerprintFacts.

(** ** The fingerprint of sample trees *)

Module FingerprintExamples.

Import FingerprintFacts Sample.

(** Timestamps of November 2016, with the sub-second part a file system of
    100 ns resolution gives. *)
Definition stamp_d : float := 0x1.606d035e9a7b8p+30.
Definition stamp_a : float := 0x1.606d06575288ap+30.
Definition stamp_b : float := 0x1.606d02f488be9p+30.

Definition a_py : node := File "a.py" (Return stamp_a).
Definition b_py : node := File "b.py" (Return stamp_b).

(** One directory, listed in two orders. *)
Definition lib_ab : node :=
  Dir "lib" false (Return stamp_d) (Return [a_py; b_py]).
Definition lib_ba : node :=
  Dir "lib" false (Return stamp_d) (Return [b_py; a_py]).





(** A matching directory below one that does not match. *)
Definition ext : node :=
  Dir "ext" false (Return stamp_b)
    (Return [File "c.py" (Return stamp_b);
             Dir "PyLib" false (Return stamp_d)
               (Return [a_py; File "notes.txt" (Return stamp_b)])]).

Definition py_lib : node :=
  Dir "PyLib" false (Return stamp_d)
    (Return [a_py; File "notes.txt" (Return stamp_b)]).

Definition cache : node :=
  Dir "cache" false (Return stamp_d) (Return [a_py]).

(** The sum after the walk, for the patterns of the examples. *)
Definition sum_of (t : node) : result pynum :=
  walk_loop "lib" "py" (os_walk t) (PyInt 0).

(** The walk goes through [ext], whose name does not match, and reads the
    timestamps of [PyLib] and of [a.py] in it, not those of [c.py] (in a
    directory that does not match) and [notes.txt]. *)
Example ext_reads :
  mtime_reads "lib" "py" ext = [py_lib; a_py]
  /\ calculate_dir_hash ext "lib" "py"
     = Return "df785b8e7d577d0464f093b8c5bf3c38".
Proof. split; vm_compute; reflexivity. Qed.

Lemma lib_reordered : reordered lib_ab lib_ba.
Proof.
  apply (reordered_dir "lib" false (Return stamp_d)
           [a_py; b_py] [a_py; b_py] [b_py; a_py]).
  - repeat constructor.
  - apply perm_swap.
Qed.



(** C3, as stated, fails: [lib] with its two files listed in either order.
    The same three timestamps are added, the two sums differ in their last
    bit, and so do their twelve-digit decimal strings and the digests. *)
Lemma float_sum_depends_on_order :
  reordered lib_ab lib_ba
  /\ (exists s s',
         sum_of lib_ab = Return (PyFloat s)
         /\ sum_of lib_ba = Return (PyFloat s')
         /\ PrimFloat.ltb s' s = true
         /\ py_str (PyFloat s) = "4434543402.62"
         /\ py_str (PyFloat s') = "4434543402.61")
  /\ calculate_dir_hash lib_ab "lib" "py"
     = Return "41ea78f7bdcb1d40c5cdb5fee274304e"
  /\ calculate_dir_hash lib_ba "lib" "py"
     = Return "8b524400cc75a764073f93c25cda6bcd".
Proof.
  split; [exact lib_reordered|].
  split.
  - exists (PrimFloat.add (PrimFloat.add (PrimFloat.add 0 stamp_d) stamp_a)
              stamp_b),
           (PrimFloat.add (PrimFloat.add (PrimFloat.add 0 stamp_d) stamp_b)
              stamp_a).
    repeat split; vm_compute; reflexivity.
  - split; vm_compute; reflexivity.
Qed.

Lemma fingerprint_of_reordered_tree_witness :
  reordered lib_ab lib_ba
  /\ Permutation (stamps "lib" "py" lib_ab) (stamps "lib" "py" lib_ba)
  /\ raises (calculate_dir_hash lib_ab "lib" "py")
     = raises (calculate_dir_hash lib_ba "lib" "py").
Proof.
  split; [exact lib_reordered|].
  exact (proj2 (fingerprint_of_reordered_tree (RT := runtime)
                  lib_ab lib_ba "lib" "py") lib_reordered).
Defined.

Lemma no_matching_directory_gives_digest_of_zero_witness :
  existsb (fun item => re_search_ignorecase "lib" (basename (root item)))
    (os_walk cache) = false
  /\ sum_of cache = Return (PyInt 0)
  /\ calculate_dir_hash cache "lib" "py" = Return (get_str_hash "0")
  /\ get_str_hash "0" = "cfcd208495d565ef66e7dff9f98764da"
  /\ (forall source_str, String.length (get_str_hash source_str) = 32%nat).
Proof.
  split; [reflexivity|].
  apply (no_matching_directory_gives_digest_of_zero (RT := runtime)
           cache "lib" "py").
  reflexivity.
Defined.

End FingerprintExamples.

(** * The other helpers of the module *)

(** ** Python strings *)

Module PyStr.

(** The characters of a string. *)
Definition chars (s : string) : list ascii := list_ascii_of_string s.

(** [s.replace(old, new)] for a non-empty [old], scanning from the left:
    [skip] counts the characters of a match that are still to be dropped. *)
Fixpoint replace_from (old new : string) (skip : nat) (s : string) : string :=
  match s with
  | EmptyString => EmptyString
  | String c rest =>
      match skip with
      | S k => replace_from old new k rest
      | O =>
          if prefix old s
          then new ++ replace_from old new (String.length old - 1) rest
          else String c (replace_from old new 0 rest)
      end
  end.

(** With an empty [old], [new] goes before every character and at the end. *)
Fixpoint intersperse (new s : string) : string :=
  match s with
  | EmptyString => new
  | String c rest => new ++ String c (intersperse new rest)
  end.

Definition replace (old new s : string) : string :=
  match old with
  | EmptyString => intersperse new s
  | String _ _ => replace_from old new 0 s
  end.

(** [sep.join(items)] *)
Definition join (sep : string) (items : list string) : string :=
  String.concat sep items.

(** [s.split(sep)] for a separator of one character: the pieces between
    the separators, at least one. *)
Fixpoint split (sep : ascii) (s : string) : list string :=
  match s with
  | EmptyString => [EmptyString]
  | String c rest =>
      if Ascii.eqb c sep then EmptyString :: split sep rest
      else match split sep rest with
           | piece :: pieces => String c piece :: pieces
           | [] => [String c EmptyString]
           end
  end.

(** Every character replaced by a string of its own. *)
Fixpoint subst_chars (f : ascii -> string) (s : string) : string :=
  match s with
  | EmptyString => EmptyString
  | String c rest => f c ++ subst_chars f rest
  end.

End PyStr.

(** ** cleanup_string, prepare_html_str, join_strings, make_canonical_name *)

Definition double_quote : string := String "034"%char EmptyString.

(** [SPECIAL_CHARS], in the order of the source.  Five keys are written
    with a backslash in the source.  Three of them are strings of two
    characters, the backslash and then an opening parenthesis, a closing
    parenthesis or a slash (the backslash is no escape there and stays);
    the doubled backslash is the backslash alone and the escaped double
    quote is the double quote alone. *)
Definition SPECIAL_CHARS : list (string * string) :=
  [ (" ", ""); ("~", ""); ("!", "EXCLAM"); ("@", "AT"); ("#", "NUM");
    ("$", "DOLLAR"); ("%", "PERCENT"); ("^", ""); ("&", "AND");
    ("*", "STAR"); ("+", "PLUS"); (";", ""); (":", ""); (",", "");
    (double_quote, ""); ("{", ""); ("}", ""); ("[", ""); ("]", "");
    ("\(", ""); ("\)", ""); ("-", "MINUS"); ("=", "EQUALS"); ("<", "");
    (">", ""); ("?", "QMARK"); (".", "DOT"); ("_", "UNDERS"); ("|", "VERT");
    ("\/", ""); ("\", "") ].

(** [cleanup_string]: one [replace] per item of the dict.  [items] is the
    order in which [SPECIAL_CHARS.items()] yields them, which the language
    leaves open for a dict (insertion order since Python 3.7, the order of
    the hash table before). *)
Definition cleanup_string (items : list (string * string))
    (input_str : string) : string :=
  fold_left (fun s item => PyStr.replace (fst item) (snd item) s)
    items input_str.

(** [prepare_html_str] *)
Definition prepare_html_str (input_string : string) : string :=
  PyStr.replace ">" "&cgt;" (PyStr.replace "<" "&clt;" input_string).

(** [join_strings]: [None] and the empty list are false. *)
Definition join_strings (path_list : option (list string)) : string :=
  match path_list with
  | Some (p :: ps) => PyStr.join ";" (p :: ps)
  | _ => ""
  end.

(** [make_canonical_name( *args )] *)
Definition make_canonical_name (args : list string) : string :=
  PyStr.join "." args.

(** ** Frames of the call stack *)

Module Frames.

(** A namespace: names with their values, one entry per name. *)
Definition namespace : Type := list (string * value).

(** [name in d] *)
Definition has_key (d : namespace) (name : string) : bool :=
  existsb (fun kv => String.eqb (fst kv) name) d.

(** How a lookup in a frame ends. *)
Inductive lookup_result : Type :=
| Found (v : value)
| KeyError (key : string).

(** [d[name]] *)
Definition getitem (d : namespace) (name : string) : lookup_result :=
  match find (fun kv => String.eqb (fst kv) name) d with
  | Some kv => Found (snd kv)
  | None => KeyError name
  end.

(** A frame object; its [f_back] chain is the list of frames behind it. *)
Record frame_object : Type :=
  Frame { f_locals : namespace; f_globals : namespace }.

(** [inspect_calling_scope_local_var], from [frame], the frame of the
    caller that [inspect.stack()[1][0]] gives, with [back] behind it. *)
Fixpoint inspect_calling_scope_local_var (frame : frame_object)
    (back : list frame_object) (variable_name : string) : lookup_result :=
  if has_key (f_locals frame) variable_name
  then getitem (f_locals frame) variable_name
  else match back with
       | [] => Found VNone
       | f_back :: back' =>
           inspect_calling_scope_local_var f_back back' variable_name
       end.

(** [inspect_calling_scope_global_var]: the loop tests [f_globals] and the
    [return] reads [f_locals]. *)
Fixpoint inspect_calling_scope_global_var (frame : frame_object)
    (back : list frame_object) (variable_name : string) : lookup_result :=
  if has_key (f_globals frame) variable_name
  then getitem (f_locals frame) variable_name
  else match back with
       | [] => Found VNone
       | f_back :: back' =>
           inspect_calling_scope_global_var f_back back' variable_name
       end.

End Frames.

(** ** get_sub_folders *)


(** ** find_loaded_asm *)

Module Assemblies.

(** A loaded assembly: [GetName().Name] and what reading [Location] gives
    (it raises for an assembly that has no file). *)
Record assembly : Type :=
  Assembly { asm_name : string; asm_location : result string }.

Section Find.

(** [str.lower] and [os.path.normpath]. *)
Variable lower : string -> string.
Variable normpath : string -> string.

(** [find_loaded_asm], over the assemblies of the current domain. *)
Fixpoint find_loaded_asm (loaded : list assembly) (asm_info : string)
    (by_partial_name by_location : bool) : list assembly :=
  match loaded with
  | [] => []
  | loaded_assembly :: rest =>
      let found := find_loaded_asm rest asm_info by_partial_name by_location in
      if by_partial_name then
        if Sample.occurs (lower asm_info) (lower (asm_name loaded_assembly))
        then loaded_assembly :: found else found
      else if by_location then
        match asm_location loaded_assembly with
        | Return location =>
            if String.eqb (normpath location) (normpath asm_info)
            then loaded_assembly :: found else found
        | Raise _ => found
        end
      else
        if String.eqb (lower asm_info) (lower (asm_name loaded_assembly))
        then loaded_assembly :: found else found
  end.

End Find.

End Assemblies.

(** ** get_all_subclasses *)

Module Subclasses.

Section Classes.

(** The objects passed in, and [parent_class.__subclasses__()]: the direct
    subclasses, or the error the call raises ([AttributeError] for an object
    that is no class). *)
Variable cls : Type.
Variable subclasses : cls -> result (list cls).

Definition is_attribute_error (e : exn) : bool :=
  match exn_type e with
  | AttributeError => true
  | _ => false
  end.

(** The loop, with [sub_classes] as it grows. *)
Fixpoint collect (parent_classes sub_classes : list cls)
  : result (list cls) :=
  match parent_classes with
  | [] => Return sub_classes
  | parent_class :: rest =>
      match subclasses parent_class with
      | Return derived_classes =>
          if Nat.eqb (List.length derived_classes) 0
          then collect rest (sub_classes ++ [parent_class])
          else collect rest (sub_classes ++ derived_classes)
      | Raise err =>
          if is_attribute_error err
          then collect rest (sub_classes ++ [parent_class])
          else Raise err
      end
  end.

Definition get_all_subclasses (parent_classes : list cls)
  : result (list cls) :=
  collect parent_classes [].

End Classes.

End Subclasses.

(** * Properties of the string helpers *)

Module PyStrFacts.

Import PyStr.

Lemma chars_cons (c : ascii) (s : string) :
  chars (String c s) = c :: chars s.
Proof. reflexivity. Qed.

Lemma chars_app (a b : string) : chars (a ++ b) = (chars a ++ chars b)%list.
Proof.
  induction a as [|c a IH]; [reflexivity|].
  cbn [append]; rewrite !chars_cons, IH; reflexivity.
Qed.

#[local] Arguments chars : simpl never.

Lemma append_nil_r (s : string) : s ++ "" = s.
Proof. induction s as [|c s IH]; simpl; [|rewrite IH]; reflexivity. Qed.

Lemma append_assoc (a b c : string) : (a ++ b) ++ c = a ++ (b ++ c).
Proof. induction a as [|x a IH]; simpl; [|rewrite IH]; reflexivity. Qed.

(** A replacement brings in no character that is not in [s] or in [new]. *)
Lemma replace_from_chars (old new : string) (skip : nat) (s : string)
    (c : ascii) :
  In c (chars (replace_from old new skip s)) ->
  In c (chars s) \/ In c (chars new).
Proof.
  revert skip; induction s as [|x s IH]; intros skip;
    cbn [replace_from]; [tauto|].
  rewrite (chars_cons x s); cbn [In].
  destruct skip as [|k].
  - destruct (prefix old (String x s)).
    + rewrite chars_app, in_app_iff.
      intros [H|H]; [right; exact H|].
      destruct (IH _ H) as [H'|H']; [left; right; exact H'|right; exact H'].
    + rewrite chars_cons; cbn [In].
      intros [H|H]; [left; left; exact H|].
      destruct (IH _ H) as [H'|H']; [left; right; exact H'|right; exact H'].
  - intros H; destruct (IH _ H) as [H'|H'];
      [left; right; exact H'|right; exact H'].
Qed.

Lemma intersperse_chars (new s : string) (c : ascii) :
  In c (chars (intersperse new s)) -> In c (chars s) \/ In c (chars new).
Proof.
  induction s as [|x s IH]; cbn [intersperse]; [tauto|].
  rewrite chars_app, in_app_iff, !chars_cons; cbn [In].
  intros [H|[H|H]]; [right; exact H|left; left; exact H|].
  destruct (IH H) as [H'|H']; [left; right; exact H'|right; exact H'].
Qed.

Lemma replace_chars (old new s : string) (c : ascii) :
  In c (chars (replace old new s)) -> In c (chars s) \/ In c (chars new).
Proof.
  destruct old as [|a old]; simpl;
    [apply intersperse_chars|apply replace_from_chars].
Qed.

Lemma prefix_head_absent (a : ascii) (old s : string) :
  ~ In a (chars s) -> prefix (String a old) s = false.
Proof.
  destruct s as [|x s]; cbn [prefix]; [reflexivity|].
  rewrite chars_cons; cbn [In].
  intros H; destruct (ascii_dec a x) as [->|_]; [|reflexivity].
  exfalso; apply H; left; reflexivity.
Qed.

(** A key whose first character does not occur leaves the string alone. *)
Lemma replace_absent_head (a : ascii) (old new s : string) :
  ~ In a (chars s) -> replace (String a old) new s = s.
Proof.
  unfold replace.
  induction s as [|x s IH]; intros H; [reflexivity|].
  cbn [replace_from].
  rewrite (prefix_head_absent a old (String x s) H).
  rewrite IH; [reflexivity|].
  intros Hin; apply H; rewrite chars_cons; right; exact Hin.
Qed.

Lemma prefix_empty (s : string) : prefix "" s = true.
Proof. destruct s; reflexivity. Qed.

(** Replacing one character is a substitution of characters. *)
Definition subst_one (k : ascii) (new : string) (c : ascii) : string :=
  if Ascii.eqb c k then new else String c EmptyString.

Lemma replace_char (k : ascii) (new s : string) :
  replace (String k EmptyString) new s = subst_chars (subst_one k new) s.
Proof.
  unfold replace.
  induction s as [|x s IH]; [reflexivity|].
  cbn [replace_from subst_chars prefix String.length Nat.sub].
  unfold subst_one at 1.
  destruct (ascii_dec k x) as [->|Hne].
  - rewrite prefix_empty, Ascii.eqb_refl, IH; reflexivity.
  - destruct (Ascii.eqb x k) eqn:E.
    + apply Ascii.eqb_eq in E; congruence.
    + rewrite IH; reflexivity.
Qed.

Lemma subst_chars_In (f : ascii -> string) (s : string) (c : ascii) :
  In c (chars (subst_chars f s)) <->
  exists x, In x (chars s) /\ In c (chars (f x)).
Proof.
  induction s as [|y s IH]; cbn [subst_chars].
  - split; [intros []|intros (x & [] & _)].
  - rewrite chars_app, in_app_iff, IH, chars_cons; cbn [In]; split.
    + intros [H|(x & Hx & Hc)]; [exists y; split; [left; reflexivity|exact H]|].
      exists x; split; [right; exact Hx|exact Hc].
    + intros (x & [->|Hx] & Hc); [left; exact Hc|right; eauto].
Qed.

(** After replacing the character [k], no [k] is left. *)
Lemma replace_char_removes (k : ascii) (new s : string) :
  ~ In k (chars new) -> ~ In k (chars (replace (String k EmptyString) new s)).
Proof.
  intros Hnew; rewrite replace_char, subst_chars_In.
  intros (x & _ & Hc); unfold subst_one in Hc.
  destruct (Ascii.eqb x k) eqn:E; [exact (Hnew Hc)|].
  rewrite chars_cons in Hc; destruct Hc as [<-|[]].
  rewrite Ascii.eqb_refl in E; discriminate.
Qed.

Lemma subst_chars_app (f : ascii -> string) (a b : string) :
  subst_chars f (a ++ b) = subst_chars f a ++ subst_chars f b.
Proof.
  induction a as [|c a IH]; simpl; [reflexivity|].
  rewrite IH, append_assoc; reflexivity.
Qed.

Lemma subst_chars_compose (f g : ascii -> string) (s : string) :
  subst_chars g (subst_chars f s)
  = subst_chars (fun c => subst_chars g (f c)) s.
Proof.
  induction s as [|c s IH]; simpl; [reflexivity|].
  rewrite subst_chars_app, IH; reflexivity.
Qed.

Lemma subst_chars_ext (f g : ascii -> string) (s : string) :
  (forall c, In c (chars s) -> f c = g c) ->
  subst_chars f s = subst_chars g s.
Proof.
  induction s as [|c s IH]; intros H; cbn [subst_chars]; [reflexivity|].
  rewrite (H c (or_introl eq_refl)), IH; [reflexivity|].
  intros x Hx; apply H; rewrite chars_cons; right; exact Hx.
Qed.

Lemma subst_chars_id (f : ascii -> string) (s : string) :
  (forall c, In c (chars s) -> f c = String c EmptyString) ->
  subst_chars f s = s.
Proof.
  induction s as [|c s IH]; intros H; cbn [subst_chars]; [reflexivity|].
  rewrite (H c (or_introl eq_refl)), IH; [reflexivity|].
  intros x Hx; apply H; rewrite chars_cons; right; exact Hx.
Qed.

End PyStrFacts.

(** ** cleanup_string *)

Module CleanupFacts.

Import PyStr PyStrFacts.

#[local] Arguments chars : simpl never.

(** The key of [item] is the character [c] alone. *)
Definition single_key (c : ascii) (item : string * string) : bool :=
  String.eqb (fst item) (String c EmptyString).

(** The characters that are keys of [SPECIAL_CHARS] on their own: all keys
    but the three of two characters. *)
Definition is_special (c : ascii) : bool :=
  existsb (single_key c) SPECIAL_CHARS.

(** What the items of a list put in the place of the character [c]. *)
Definition subst_of (items : list (string * string)) (c : ascii) : string :=
  match find (single_key c) items with
  | Some item => snd item
  | None => String c EmptyString
  end.

Definition special_subst : ascii -> string := subst_of SPECIAL_CHARS.

Definition backslash : ascii := "\"%char.

(** What holds of every item of [SPECIAL_CHARS]: its key is one character,
    or a backslash and more; the first character of the key is special; and
    the replacement holds no special character. *)
Definition item_ok (item : string * string) : bool :=
  match fst item with
  | EmptyString => false
  | String a EmptyString => is_special a
  | String a (String _ _) => Ascii.eqb a backslash && is_special a
  end
  && forallb (fun c => negb (is_special c)) (chars (snd item)).

Fixpoint nodupb (l : list string) : bool :=
  match l with
  | [] => true
  | x :: rest => negb (existsb (String.eqb x) rest) && nodupb rest
  end.

Lemma nodupb_NoDup (l : list string) : nodupb l = true -> NoDup l.
Proof.
  induction l as [|x l IH]; simpl; [constructor|].
  intros H; apply andb_true_iff in H; destruct H as (Hx & Hl).
  constructor; [|apply IH, Hl].
  intros Hin; apply negb_true_iff in Hx.
  assert (existsb (String.eqb x) l = true) as E; [|congruence].
  apply existsb_exists; exists x; split; [exact Hin|apply String.eqb_refl].
Qed.

Lemma special_items_ok : Forall (fun item => item_ok item = true) SPECIAL_CHARS.
Proof. apply Forall_forall, forallb_forall; vm_compute; reflexivity. Qed.

Lemma special_keys_NoDup : NoDup (map fst SPECIAL_CHARS).
Proof. apply nodupb_NoDup; vm_compute; reflexivity. Qed.

Lemma item_ok_In (item : string * string) :
  In item SPECIAL_CHARS -> item_ok item = true.
Proof.
  intros H; pose proof special_items_ok as Hall.
  rewrite Forall_forall in Hall; exact (Hall item H).
Qed.

Lemma repl_not_special (item : string * string) (c : ascii) :
  In item SPECIAL_CHARS -> In c (chars (snd item)) -> is_special c = false.
Proof.
  intros Hitem Hc; pose proof (item_ok_In item Hitem) as Hok.
  unfold item_ok in Hok; apply andb_true_iff in Hok; destruct Hok as (_ & Hr).
  rewrite forallb_forall in Hr; apply negb_true_iff, Hr, Hc.
Qed.

Lemma key_head_special (item : string * string) :
  In item SPECIAL_CHARS ->
  exists a old, fst item = String a old /\ is_special a = true.
Proof.
  intros Hitem; pose proof (item_ok_In item Hitem) as Hok.
  unfold item_ok in Hok; apply andb_true_iff in Hok; destruct Hok as (Hk & _).
  destruct (fst item) as [|a [|b old]]; [discriminate| |].
  - exists a, EmptyString; split; [reflexivity|exact Hk].
  - apply andb_true_iff in Hk; destruct Hk as (_ & Hk).
    exists a, (String b old); split; [reflexivity|exact Hk].
Qed.

Lemma is_special_In (c : ascii) :
  is_special c = true ->
  exists r, In (String c EmptyString, r) SPECIAL_CHARS.
Proof.
  unfold is_special; rewrite existsb_exists.
  intros ([k r] & Hin & Hk); unfold single_key in Hk; simpl in Hk.
  apply String.eqb_eq in Hk; subst k; exists r; exact Hin.
Qed.

Lemma cleanup_string_app (pre post : list (string * string)) (s : string) :
  cleanup_string (pre ++ post) s = cleanup_string post (cleanup_string pre s).
Proof. unfold cleanup_string; apply fold_left_app. Qed.

Lemma cleanup_string_cons (item : string * string)
    (rest : list (string * string)) (s : string) :
  cleanup_string (item :: rest) s
  = cleanup_string rest (replace (fst item) (snd item) s).
Proof. reflexivity. Qed.

(** A character that is absent and that no replacement holds stays absent. *)
Lemma cleanup_keeps_absent (items : list (string * string)) (s : string)
    (c : ascii) :
  Forall (fun item => ~ In c (chars (snd item))) items ->
  ~ In c (chars s) -> ~ In c (chars (cleanup_string items s)).
Proof.
  revert s; induction items as [|item items IH]; intros s Hall Hs;
    [exact Hs|].
  rewrite cleanup_string_cons.
  inversion Hall as [|? ? Hitem Hrest]; subst.
  apply IH; [exact Hrest|].
  intros Hin; apply replace_chars in Hin; tauto.
Qed.

(** A string without special characters is left as it is. *)
Lemma cleanup_fixed (items : list (string * string)) (s : string) :
  incl items SPECIAL_CHARS ->
  (forall c, is_special c = true -> ~ In c (chars s)) ->
  cleanup_string items s = s.
Proof.
  induction items as [|item items IH]; intros Hincl Hs; [reflexivity|].
  rewrite cleanup_string_cons.
  destruct (key_head_special item (Hincl item (or_introl eq_refl)))
    as (a & old & -> & Ha).
  rewrite (replace_absent_head a old _ s (Hs a Ha)).
  apply IH; [|exact Hs].
  intros x Hx; apply Hincl; right; exact Hx.
Qed.

Lemma subst_of_not_special (items : list (string * string)) (c : ascii) :
  incl items SPECIAL_CHARS -> is_special c = false ->
  subst_of items c = String c EmptyString.
Proof.
  intros Hincl Hc; unfold subst_of.
  destruct (find (single_key c) items) as [item|] eqn:E; [|reflexivity].
  apply find_some in E; destruct E as (Hin & Hk).
  assert (is_special c = true) as H; [|congruence].
  apply existsb_exists; exists item; split; [apply Hincl, Hin|exact Hk].
Qed.

(** On a string without backslash, the replacements in turn amount to one
    substitution of characters. *)
Lemma cleanup_subst (items : list (string * string)) (s : string) :
  incl items SPECIAL_CHARS ->
  ~ In backslash (chars s) ->
  cleanup_string items s = subst_chars (subst_of items) s.
Proof.
  revert s; induction items as [|item items IH]; intros s Hincl Hs.
  - symmetry; apply subst_chars_id; reflexivity.
  - assert (Hitem : In item SPECIAL_CHARS) by (apply Hincl; left; reflexivity).
    assert (Hrest : incl items SPECIAL_CHARS)
      by (intros x Hx; apply Hincl; right; exact Hx).
    rewrite cleanup_string_cons.
    pose proof (item_ok_In item Hitem) as Hok.
    destruct item as [k r]; unfold item_ok in Hok; simpl in Hok.
    apply andb_true_iff in Hok; destruct Hok as (Hk & _).
    destruct k as [|a [|b old]]; [discriminate| |]; simpl fst; simpl snd.
    + rewrite replace_char, IH; [|exact Hrest|].
      * rewrite subst_chars_compose; apply subst_chars_ext.
        intros c _; unfold subst_one, subst_of at 2; simpl find.
        unfold single_key at 1; simpl fst.
        destruct (Ascii.eqb c a) eqn:E.
        -- apply Ascii.eqb_eq in E; subst c; rewrite String.eqb_refl.
           apply subst_chars_id; intros x Hx.
           apply subst_of_not_special; [exact Hrest|].
           apply (repl_not_special (String a EmptyString, r) x Hitem Hx).
        -- assert (String.eqb (String a EmptyString) (String c EmptyString)
                   = false) as ->.
           { apply String.eqb_neq; intros H; inversion H; subst.
             rewrite Ascii.eqb_refl in E; discriminate. }
           cbn [subst_chars]; apply append_nil_r.
      * rewrite subst_chars_In; intros (x & Hx & Hc); unfold subst_one in Hc.
        destruct (Ascii.eqb x a).
        -- pose proof (repl_not_special _ _ Hitem Hc) as H.
           vm_compute in H; discriminate.
        -- rewrite chars_cons in Hc; destruct Hc as [Hc|[]]; subst x.
           exact (Hs Hx).
    + apply andb_true_iff in Hk; destruct Hk as (Ha & _).
      apply Ascii.eqb_eq in Ha; subst a.
      rewrite (replace_absent_head backslash (String b old) r s Hs).
      rewrite IH; [|exact Hrest|exact Hs].
      apply subst_chars_ext; intros c _.
      unfold subst_of; cbn [find].
      assert (single_key c (String backslash (String b old), r) = false)
        as ->; [|reflexivity].
      unfold single_key; cbn [fst].
      apply String.eqb_neq; intros H; inversion H.
Qed.

(** The order of a list with distinct keys does not matter to a lookup. *)
Lemma find_key_Permutation (l l' : list (string * string)) (c : ascii) :
  Permutation l l' -> NoDup (map fst l) ->
  find (single_key c) l = find (single_key c) l'.
Proof.
  induction 1 as [|x l l' _ IH|x y l|l l' l'' H1 IH1 H2 IH2]; intros Hnd.
  - reflexivity.
  - simpl; destruct (single_key c x); [reflexivity|].
    apply IH; inversion Hnd; assumption.
  - simpl; destruct (single_key c x) eqn:Ex, (single_key c y) eqn:Ey;
      try reflexivity.
    exfalso; unfold single_key in Ex, Ey.
    apply String.eqb_eq in Ex, Ey.
    simpl in Hnd; inversion Hnd as [|? ? Hy _]; subst.
    apply Hy; left; congruence.
  - rewrite IH1; [apply IH2|exact Hnd].
    apply (Permutation_NoDup (Permutation_map fst H1)), Hnd.
Qed.

Lemma Permutation_incl_special (items : list (string * string)) :
  Permutation items SPECIAL_CHARS -> incl items SPECIAL_CHARS.
Proof. intros H x Hx; exact (Permutation_in x H Hx). Qed.

End CleanupFacts.

Module StringHelperFacts.

Import PyStr PyStrFacts CleanupFacts.

#[local] Arguments chars : simpl never.

(** Once the item of the character [c] has been applied, [c] is gone for
    good. *)
Lemma cleanup_removes_key (pre post : list (string * string))
    (c : ascii) (r input_str : string) :
  incl (pre ++ (String c EmptyString, r) :: post) SPECIAL_CHARS ->
  is_special c = true ->
  ~ In c (chars (cleanup_string (pre ++ (String c EmptyString, r) :: post)
                   input_str)).
Proof.
  intros Hincl Hc.
  rewrite cleanup_string_app, cleanup_string_cons.
  assert (Hnew : forall item, In item SPECIAL_CHARS ->
                              ~ In c (chars (snd item))).
  { intros item Hitem Hx.
    rewrite (repl_not_special item c Hitem Hx) in Hc; discriminate. }
  apply cleanup_keeps_absent.
  - apply Forall_forall; intros item Hitem; apply Hnew, Hincl.
    apply in_or_app; right; right; exact Hitem.
  - apply replace_char_removes, Hnew, Hincl.
    apply in_or_app; right; left; reflexivity.
Qed.

(** X1: whatever the order in which the dict yields its items, the result
    of [cleanup_string] holds none of the characters that are a key on
    their own (space, [~], [!], ... and the backslash). *)
Theorem cleanup_string_leaves_no_special
    (items : list (string * string)) (input_str : string) (c : ascii) :
  Permutation items SPECIAL_CHARS ->
  is_special c = true ->
  ~ In c (chars (cleanup_string items input_str)).
Proof.
  intros Hperm Hc.
  destruct (is_special_In c Hc) as (r & Hr).
  assert (Hin : In (String c EmptyString, r) items)
    by exact (Permutation_in _ (Permutation_sym Hperm) Hr).
  destruct (in_split _ _ Hin) as (pre & post & Heq).
  rewrite Heq in Hperm |- *.
  apply cleanup_removes_key; [|exact Hc].
  apply Permutation_incl_special, Hperm.
Qed.

(** X2: cleaning a cleaned string changes nothing, whatever the two orders
    of the items. *)
Theorem cleanup_string_idempotent
    (items items' : list (string * string)) (input_str : string) :
  Permutation items SPECIAL_CHARS ->
  Permutation items' SPECIAL_CHARS ->
  cleanup_string items' (cleanup_string items input_str)
  = cleanup_string items input_str.
Proof.
  intros Hperm Hperm'.
  apply cleanup_fixed; [apply Permutation_incl_special, Hperm'|].
  intros c Hc.
  destruct (is_special_In c Hc) as (r & Hr).
  destruct (in_split _ _ (Permutation_in _ (Permutation_sym Hperm) Hr))
    as (pre & post & Heq).
  rewrite Heq in Hperm |- *.
  apply cleanup_removes_key; [|exact Hc].
  apply Permutation_incl_special, Hperm.
Qed.

Lemma cleanup_special_subst
    (items : list (string * string)) (input_str : string) :
  Permutation items SPECIAL_CHARS ->
  ~ In backslash (chars input_str) ->
  cleanup_string items input_str = subst_chars special_subst input_str.
Proof.
  intros Hperm Hs.
  rewrite (cleanup_subst items input_str
             (Permutation_incl_special items Hperm) Hs).
  apply subst_chars_ext; intros c _; unfold special_subst, subst_of.
  rewrite (find_key_Permutation SPECIAL_CHARS items c
             (Permutation_sym Hperm) special_keys_NoDup).
  reflexivity.
Qed.

(** X3: on an input without backslash the result does not depend on the
    order of the items: every character that is a key is replaced by its
    value and every other character is kept, so that parentheses and
    slashes, which are keys only after a backslash, stay in the result. *)
Theorem cleanup_string_without_backslash
    (items : list (string * string)) (input_str : string) :
  Permutation items SPECIAL_CHARS ->
  ~ In backslash (chars input_str) ->
  cleanup_string items input_str = subst_chars special_subst input_str
  /\ (forall c, is_special c = false -> In c (chars input_str) ->
                In c (chars (cleanup_string items input_str))).
Proof.
  intros Hperm Hs.
  pose proof (cleanup_special_subst items input_str Hperm Hs) as Heq.
  split; [exact Heq|].
  intros c Hc Hin; rewrite Heq, subst_chars_In.
  exists c; split; [exact Hin|].
  unfold special_subst.
  rewrite (subst_of_not_special SPECIAL_CHARS c (incl_refl _) Hc).
  rewrite chars_cons; left; reflexivity.
Qed.

(** Items whose keys are single characters other than the backslash and
    the opening parenthesis pass over these two characters in front. *)
Lemma cleanup_string_past_escape (items : list (string * string))
    (t : string) :
  Forall (fun item =>
            exists a, fst item = String a EmptyString
                      /\ a <> backslash /\ a <> "("%char) items ->
  cleanup_string items ("\(" ++ t) = "\(" ++ cleanup_string items t.
Proof.
  revert t; induction items as [|[k r] items IH]; intros t Hall;
    [reflexivity|].
  inversion Hall as [|? ? (a & Hk & Hb & Hp) Hrest]; subst.
  simpl in Hk; subst k.
  rewrite !cleanup_string_cons; cbn [fst snd].
  rewrite !replace_char.
  cbn [append subst_chars]; unfold subst_one at 1 2.
  assert (Ascii.eqb "\"%char a = false) as ->.
  { apply Ascii.eqb_neq; intros H; apply Hb; symmetry; exact H. }
  assert (Ascii.eqb "("%char a = false) as ->.
  { apply Ascii.eqb_neq; congruence. }
  exact (IH _ Hrest).
Qed.

(** The key of a backslash and a parenthesis, met in front. *)
Lemma replace_escape_front (t : string) :
  replace "\(" "" ("\(" ++ t) = replace "\(" "" t.
Proof.
  unfold replace; cbn [append replace_from].
  assert (prefix "\(" (String "\"%char (String "("%char t)) = true) as ->.
  { cbn; apply prefix_empty. }
  reflexivity.
Qed.

(** X4: with a backslash in the input the result depends on the order of
    the items.  For the input made of a backslash, an opening parenthesis
    and any [t] without backslash: in the order of the source the two
    characters go together, as one key, and the result is that of [t]; in
    the reverse order the backslash goes first and the parenthesis stays in
    front of the result of [t]. *)
Theorem cleanup_string_depends_on_order (t : string) :
  ~ In backslash (chars t) ->
  Permutation (rev SPECIAL_CHARS) SPECIAL_CHARS
  /\ cleanup_string SPECIAL_CHARS ("\(" ++ t)
     = subst_chars special_subst t
  /\ cleanup_string (rev SPECIAL_CHARS) ("\(" ++ t)
     = "(" ++ subst_chars special_subst t.
Proof.
  intros Ht.
  assert (Hrev : Permutation (rev SPECIAL_CHARS) SPECIAL_CHARS)
    by apply Permutation_sym, Permutation_rev.
  split; [exact Hrev|]; split.
  - rewrite <- (cleanup_special_subst SPECIAL_CHARS t
                  (Permutation_refl _) Ht).
    change SPECIAL_CHARS
      with (firstn 19 SPECIAL_CHARS
            ++ ("\(", "") :: skipn 20 SPECIAL_CHARS)%list.
    rewrite !cleanup_string_app, !cleanup_string_cons.
    rewrite cleanup_string_past_escape;
      [cbn [fst snd]; rewrite replace_escape_front; reflexivity|].
    repeat constructor;
      (eexists; split; [reflexivity|split; intros H; inversion H]).
  - change (rev SPECIAL_CHARS)
      with ((String backslash EmptyString, "") :: tl (rev SPECIAL_CHARS)).
    rewrite cleanup_string_cons; cbn [fst snd].
    rewrite replace_char; cbn [append subst_chars].
    unfold subst_one at 1 2; rewrite Ascii.eqb_refl.
    change (Ascii.eqb "("%char backslash) with false; cbn [append].
    rewrite <- replace_char, (replace_absent_head backslash EmptyString _ t Ht).
    assert (Hs : ~ In backslash (chars (String "("%char t))).
    { rewrite chars_cons; intros [H|H]; [inversion H|exact (Ht H)]. }
    rewrite <- (replace_absent_head backslash EmptyString "" _ Hs).
    change (cleanup_string (tl (rev SPECIAL_CHARS))
              (replace (String backslash EmptyString) "" (String "("%char t)))
      with (cleanup_string (rev SPECIAL_CHARS) (String "("%char t)).
    rewrite (cleanup_special_subst (rev SPECIAL_CHARS)
               (String "("%char t) Hrev Hs).
    reflexivity.
Qed.

(** X5: the result of [prepare_html_str] holds no angle bracket, and
    preparing it again changes nothing. *)
Theorem prepare_html_str_no_brackets (input_string : string) :
  ~ In "<"%char (chars (prepare_html_str input_string))
  /\ ~ In ">"%char (chars (prepare_html_str input_string))
  /\ prepare_html_str (prepare_html_str input_string)
     = prepare_html_str input_string.
Proof.
  assert (Hlt : ~ In "<"%char (chars (prepare_html_str input_string))).
  { unfold prepare_html_str; intros H.
    apply replace_chars in H; destruct H as [H|H].
    - revert H; apply replace_char_removes.
      vm_compute; intuition discriminate.
    - vm_compute in H; intuition discriminate. }
  assert (Hgt : ~ In ">"%char (chars (prepare_html_str input_string))).
  { unfold prepare_html_str; apply replace_char_removes.
    vm_compute; intuition discriminate. }
  split; [exact Hlt|]; split; [exact Hgt|].
  unfold prepare_html_str at 1.
  rewrite (replace_absent_head "<"%char EmptyString _ _ Hlt).
  apply (replace_absent_head ">"%char EmptyString _ _ Hgt).
Qed.

(** *** join and split *)

Lemma split_no_sep (sep : ascii) (s : string) :
  ~ In sep (chars s) -> split sep s = [s].
Proof.
  induction s as [|c s IH]; intros H; [reflexivity|].
  cbn [split]; rewrite chars_cons in H.
  destruct (Ascii.eqb c sep) eqn:E.
  - apply Ascii.eqb_eq in E; exfalso; apply H; left; exact E.
  - rewrite IH; [reflexivity|].
    intros Hin; apply H; right; exact Hin.
Qed.

Lemma split_app_sep (sep : ascii) (a rest : string) :
  ~ In sep (chars a) ->
  split sep (a ++ String sep rest) = a :: split sep rest.
Proof.
  induction a as [|c a IH]; intros H.
  - cbn [append split]; rewrite Ascii.eqb_refl; reflexivity.
  - cbn [append split]; rewrite chars_cons in H.
    destruct (Ascii.eqb c sep) eqn:E.
    + apply Ascii.eqb_eq in E; exfalso; apply H; left; exact E.
    + rewrite IH; [reflexivity|].
      intros Hin; apply H; right; exact Hin.
Qed.

(** Splitting what [join] made gives the parts back. *)
Lemma split_join (sep : ascii) (p : string) (ps : list string) :
  Forall (fun x => ~ In sep (chars x)) (p :: ps) ->
  split sep (join (String sep EmptyString) (p :: ps)) = p :: ps.
Proof.
  revert p; induction ps as [|q ps IH]; intros p H.
  - inversion H; subst; apply split_no_sep; assumption.
  - inversion H as [|? ? Hp Hrest]; subst.
    specialize (IH q Hrest); unfold join in *.
    change (String.concat (String sep EmptyString) (p :: q :: ps))
      with (p ++ String sep (String.concat (String sep EmptyString) (q :: ps))).
    rewrite (split_app_sep sep p _ Hp), IH; reflexivity.
Qed.

Lemma join_app (sep : string) (a : string) (l1 : list string) (b : string)
    (l2 : list string) :
  join sep ((a :: l1) ++ b :: l2)
  = join sep (a :: l1) ++ sep ++ join sep (b :: l2).
Proof.
  revert a; induction l1 as [|x l1 IH]; intros a; [reflexivity|].
  unfold join in *; cbn [app String.concat] in *.
  rewrite IH, !append_assoc; reflexivity.
Qed.

(** X6: a non-empty list of strings without semicolon can be read back
    from the result of [join_strings] by splitting it at the semicolons;
    [None] and the empty list give the empty string, as the list of one
    empty string does. *)
Theorem join_strings_split (p : string) (ps : list string) :
  Forall (fun x => ~ In ";"%char (chars x)) (p :: ps) ->
  split ";" (join_strings (Some (p :: ps))) = p :: ps
  /\ join_strings None = join_strings (Some [])
  /\ join_strings (Some []) = join_strings (Some [EmptyString]).
Proof.
  intros H; split; [|split; reflexivity].
  exact (split_join ";"%char p ps H).
Qed.

(** X7: a canonical name can be extended: joining the name of a non-empty
    list of parts with more parts is joining all the parts; and parts without
    dot can be read back by splitting at the dots. *)
Theorem make_canonical_name_extends (a : string) (parts more : list string) :
  make_canonical_name (make_canonical_name (a :: parts) :: more)
  = make_canonical_name ((a :: parts) ++ more)
  /\ (Forall (fun x => ~ In "."%char (chars x)) (a :: parts) ->
      split "." (make_canonical_name (a :: parts)) = a :: parts).
Proof.
  split; [|exact (split_join "."%char a parts)].
  unfold make_canonical_name.
  destruct more as [|b more].
  - rewrite app_nil_r; reflexivity.
  - rewrite join_app; reflexivity.
Qed.

End StringHelperFacts.

(** ** The frames, the folders, the assemblies and the classes *)

Module HelperFacts.

Import Frames Assemblies Subclasses.

Lemma getitem_has_key (d : namespace) (name : string) :
  has_key d name = true -> exists v, getitem d name = Found v.
Proof.
  unfold has_key, getitem; intros H.
  destruct (find _ d) as [kv|] eqn:E; [exists (snd kv); reflexivity|].
  apply existsb_exists in H; destruct H as (kv & Hin & Hk).
  rewrite (find_none _ _ E kv Hin) in Hk; discriminate.
Qed.

Lemma getitem_missing (d : namespace) (name : string) :
  has_key d name = false -> getitem d name = KeyError name.
Proof.
  unfold has_key, getitem; intros H.
  destruct (find _ d) as [kv|] eqn:E; [|reflexivity].
  apply find_some in E; destruct E as (Hin & Hk).
  assert (existsb (fun kv => String.eqb (fst kv) name) d = true) as H';
    [|congruence].
  apply existsb_exists; exists kv; split; assumption.
Qed.

Lemma local_var_skip (pre : list frame_object) (f : frame_object)
    (post : list frame_object) (frame : frame_object)
    (back : list frame_object) (name : string) :
  frame :: back = (pre ++ f :: post)%list ->
  Forall (fun g => has_key (f_locals g) name = false) pre ->
  inspect_calling_scope_local_var frame back name
  = inspect_calling_scope_local_var f post name.
Proof.
  revert frame back; induction pre as [|g pre IH]; intros frame back Heq Hall.
  - inversion Heq; reflexivity.
  - inversion Heq; subst; inversion Hall as [|? ? Hg Hpre]; subst.
    destruct pre as [|g' pre']; simpl; rewrite Hg.
    + reflexivity.
    + apply (IH g' (pre' ++ f :: post)%list); [reflexivity|exact Hpre].
Qed.

Lemma global_var_skip (pre : list frame_object) (f : frame_object)
    (post : list frame_object) (frame : frame_object)
    (back : list frame_object) (name : string) :
  frame :: back = (pre ++ f :: post)%list ->
  Forall (fun g => has_key (f_globals g) name = false) pre ->
  inspect_calling_scope_global_var frame back name
  = inspect_calling_scope_global_var f post name.
Proof.
  revert frame back; induction pre as [|g pre IH]; intros frame back Heq Hall.
  - inversion Heq; reflexivity.
  - inversion Heq; subst; inversion Hall as [|? ? Hg Hpre]; subst.
    destruct pre as [|g' pre']; simpl; rewrite Hg.
    + reflexivity.
    + apply (IH g' (pre' ++ f :: post)%list); [reflexivity|exact Hpre].
Qed.

(** X8: [inspect_calling_scope_local_var] never raises.  It gives the value
    the name has in the nearest frame, from the caller outwards, whose
    locals hold the name, and [None] when no frame does. *)
Theorem local_var_of_nearest_frame
    (frame : frame_object) (back : list frame_object) (name : string) :
  (exists v, inspect_calling_scope_local_var frame back name = Found v)
  /\ (forall pre f post v,
         frame :: back = (pre ++ f :: post)%list ->
         Forall (fun g => has_key (f_locals g) name = false) pre ->
         getitem (f_locals f) name = Found v ->
         inspect_calling_scope_local_var frame back name = Found v)
  /\ (Forall (fun g => has_key (f_locals g) name = false) (frame :: back) ->
      inspect_calling_scope_local_var frame back name = Found VNone).
Proof.
  split; [|split].
  - revert frame; induction back as [|g back IH]; intros frame; simpl.
    + destruct (has_key (f_locals frame) name) eqn:E;
        [apply getitem_has_key, E|exists VNone; reflexivity].
    + destruct (has_key (f_locals frame) name) eqn:E;
        [apply getitem_has_key, E|apply IH].
  - intros pre f post v Heq Hpre Hv.
    rewrite (local_var_skip pre f post frame back name Heq Hpre).
    destruct post; simpl;
      (destruct (has_key (f_locals f) name) eqn:E; [exact Hv|]);
      rewrite (getitem_missing _ _ E) in Hv; discriminate.
  - revert frame; induction back as [|g back IH]; intros frame Hall;
      inversion Hall as [|? ? Hf Hrest]; subst; simpl; rewrite Hf;
      [reflexivity|apply IH, Hrest].
Qed.

(** X9: [inspect_calling_scope_global_var] stops at the nearest frame whose
    globals hold the name, and gives what the locals of that frame hold:
    it raises [KeyError] when the name is a global of the frame and not a
    local of it.  When every frame has its globals as its locals, as the
    frames of module code do, it gives what the local search gives. *)
Theorem global_var_reads_locals
    (frame : frame_object) (back : list frame_object) (name : string) :
  (forall pre f post,
      frame :: back = (pre ++ f :: post)%list ->
      Forall (fun g => has_key (f_globals g) name = false) pre ->
      has_key (f_globals f) name = true ->
      inspect_calling_scope_global_var frame back name
      = getitem (f_locals f) name
      /\ (has_key (f_locals f) name = false ->
          inspect_calling_scope_global_var frame back name = KeyError name))
  /\ (Forall (fun g => f_locals g = f_globals g) (frame :: back) ->
      inspect_calling_scope_global_var frame back name
      = inspect_calling_scope_local_var frame back name).
Proof.
  split.
  - intros pre f post Heq Hpre Hf.
    rewrite (global_var_skip pre f post frame back name Heq Hpre).
    assert (Hres : inspect_calling_scope_global_var f post name
                   = getitem (f_locals f) name)
      by (destruct post; simpl; rewrite Hf; reflexivity).
    split; [exact Hres|].
    intros Hl; rewrite Hres; apply getitem_missing, Hl.
  - revert frame; induction back as [|g back IH]; intros frame Hall;
      inversion Hall as [|? ? Hf Hrest]; subst; simpl; rewrite Hf;
      [reflexivity|].
    rewrite (IH g Hrest); reflexivity.
Qed.


Lemma prefix_refl (s : string) : prefix s s = true.
Proof.
  induction s as [|c s IH]; [reflexivity|].
  simpl; destruct (ascii_dec c c) as [_|H]; [exact IH|congruence].
Qed.

Lemma occurs_refl (s : string) : Sample.occurs s s = true.
Proof. destruct s; cbn [Sample.occurs]; rewrite prefix_refl; reflexivity. Qed.

Section Find.

Variable lower : string -> string.
Variable normpath : string -> string.

Lemma find_loaded_asm_In (loaded : list assembly) (asm_info : string)
    (by_partial_name by_location : bool) (a : assembly) :
  In a (find_loaded_asm lower normpath loaded asm_info
          by_partial_name by_location) ->
  In a loaded
  /\ (if by_partial_name
      then Sample.occurs (lower asm_info) (lower (asm_name a)) = true
      else if by_location
           then exists location,
                  asm_location a = Return location
                  /\ normpath location = normpath asm_info
           else lower asm_info = lower (asm_name a)).
Proof.
  induction loaded as [|x loaded IH]; simpl; [contradiction|].
  destruct by_partial_name.
  - destruct (Sample.occurs (lower asm_info) (lower (asm_name x))) eqn:E.
    + intros [<-|H]; [split; [left; reflexivity|exact E]|].
      destruct (IH H); split; [right|]; assumption.
    + intros H; destruct (IH H); split; [right|]; assumption.
  - destruct by_location.
    + destruct (asm_location x) as [e|location] eqn:El.
      * intros H; destruct (IH H); split; [right|]; assumption.
      * destruct (String.eqb (normpath location) (normpath asm_info)) eqn:E.
        -- intros [<-|H].
           ++ split; [left; reflexivity|].
              exists location; split; [exact El|apply String.eqb_eq, E].
           ++ destruct (IH H); split; [right|]; assumption.
        -- intros H; destruct (IH H); split; [right|]; assumption.
    + destruct (String.eqb (lower asm_info) (lower (asm_name x))) eqn:E.
      * intros [<-|H]; [split; [left; reflexivity|apply String.eqb_eq, E]|].
        destruct (IH H); split; [right|]; assumption.
      * intros H; destruct (IH H); split; [right|]; assumption.
Qed.

Lemma find_loaded_asm_partial (loaded : list assembly) (asm_info : string)
    (by_location : bool) (a : assembly) :
  In a loaded ->
  Sample.occurs (lower asm_info) (lower (asm_name a)) = true ->
  In a (find_loaded_asm lower normpath loaded asm_info true by_location).
Proof.
  induction loaded as [|x loaded IH]; simpl; [contradiction|].
  intros [->|H] Ha.
  - rewrite Ha; left; reflexivity.
  - destruct (Sample.occurs (lower asm_info) (lower (asm_name x)));
      [right|]; apply IH; assumption.
Qed.

(** X11: an assembly that the search by exact name finds is found by the
    search by partial name too, whatever [by_location] is; and the search
    by location returns no assembly whose [Location] cannot be read. *)
Theorem find_loaded_asm_exact_in_partial
    (loaded : list assembly) (asm_info : string) (by_location : bool)
    (a : assembly) :
  (In a (find_loaded_asm lower normpath loaded asm_info false false) ->
   In a (find_loaded_asm lower normpath loaded asm_info true by_location))
  /\ (In a (find_loaded_asm lower normpath loaded asm_info false true) ->
      In a loaded /\ raises (asm_location a) = false).
Proof.
  split.
  - intros H; apply find_loaded_asm_In in H; destruct H as (Hin & Heq).
    apply find_loaded_asm_partial; [exact Hin|].
    simpl in Heq; rewrite Heq; apply occurs_refl.
  - intros H; apply find_loaded_asm_In in H; destruct H as (Hin & Hloc).
    simpl in Hloc; destruct Hloc as (location & -> & _).
    split; [exact Hin|reflexivity].
Qed.

End Find.

Section Classes.

Variable cls : Type.
Variable subclasses : cls -> result (list cls).

(** What one parent adds to the list. *)
Definition contribution (parent : cls) (c : cls) : Prop :=
  (c = parent
   /\ (subclasses parent = Return []
       \/ exists err, subclasses parent = Raise err
                      /\ is_attribute_error err = true))
  \/ (exists derived, subclasses parent = Return derived /\ In c derived).

(** What stands for one parent in the result: its direct subclasses when
    it has some, and the parent itself otherwise. *)
Definition replaced_by (parent : cls) : list cls :=
  match subclasses parent with
  | Return [] => [parent]
  | Return derived => derived
  | Raise _ => [parent]
  end.

Lemma collect_exact (parents acc subs : list cls) :
  collect cls subclasses parents acc = Return subs ->
  subs = (acc ++ flat_map replaced_by parents)%list.
Proof.
  revert acc; induction parents as [|p parents IH]; intros acc; simpl.
  - intros H; inversion H; subst; rewrite app_nil_r; reflexivity.
  - unfold replaced_by at 1.
    destruct (subclasses p) as [err|[|d derived]].
    + destruct (is_attribute_error err); [|discriminate].
      intros H; rewrite (IH _ H), <- app_assoc; reflexivity.
    + simpl; intros H; rewrite (IH _ H), <- app_assoc; reflexivity.
    + simpl; intros H; rewrite (IH _ H), <- app_assoc; reflexivity.
Qed.

(** The loop returns when no call raises anything but [AttributeError]. *)
Lemma collect_returns (parents acc : list cls) :
  Forall (fun p => forall err, subclasses p = Raise err ->
                               is_attribute_error err = true) parents ->
  collect cls subclasses parents acc
  = Return (acc ++ flat_map replaced_by parents)%list.
Proof.
  revert acc; induction parents as [|p parents IH]; intros acc Hall; simpl.
  - rewrite app_nil_r; reflexivity.
  - inversion Hall as [|? ? Hp Hrest]; subst.
    unfold replaced_by at 1.
    destruct (subclasses p) as [err|[|d derived]].
    + rewrite (Hp err eq_refl), (IH _ Hrest), <- app_assoc; reflexivity.
    + simpl; rewrite (IH _ Hrest), <- app_assoc; reflexivity.
    + simpl; rewrite (IH _ Hrest), <- app_assoc; reflexivity.
Qed.

Lemma collect_spec (parents acc subs : list cls) :
  collect cls subclasses parents acc = Return subs ->
  exists added,
    subs = (acc ++ added)%list
    /\ (List.length parents <= List.length added)%nat
    /\ (forall c, In c added -> exists p, In p parents /\ contribution p c).
Proof.
  revert acc; induction parents as [|p parents IH]; intros acc; simpl.
  - intros H; inversion H; subst; exists []; rewrite app_nil_r.
    repeat split; [apply le_n|intros c []].
  - destruct (subclasses p) as [err|derived] eqn:E.
    + destruct (is_attribute_error err) eqn:Ea; [|discriminate].
      intros H; destruct (IH _ H) as (added & -> & Hlen & Hall).
      exists (p :: added); rewrite <- app_assoc; simpl.
      repeat split; [apply le_n_S, Hlen|].
      intros c [<-|Hc].
      * exists p; split; [left; reflexivity|].
        left; split; [reflexivity|right; exists err; split; assumption].
      * destruct (Hall c Hc) as (q & Hq & Hcontrib).
        exists q; split; [right; exact Hq|exact Hcontrib].
    + destruct derived as [|d derived]; simpl.
      * intros H; destruct (IH _ H) as (added & -> & Hlen & Hall).
        exists (p :: added); rewrite <- app_assoc; simpl.
        repeat split; [apply le_n_S, Hlen|].
        intros c [<-|Hc].
        -- exists p; split; [left; reflexivity|].
           left; split; [reflexivity|left; exact E].
        -- destruct (Hall c Hc) as (q & Hq & Hcontrib).
           exists q; split; [right; exact Hq|exact Hcontrib].
      * intros H; destruct (IH _ H) as (added & -> & Hlen & Hall).
        exists ((d :: derived) ++ added)%list; rewrite <- app_assoc.
        repeat split.
        -- simpl; apply le_n_S; rewrite length_app; lia.
        -- intros c Hc; apply in_app_iff in Hc; destruct Hc as [Hc|Hc].
           ++ exists p; split; [left; reflexivity|].
              right; exists (d :: derived); split; [exact E|exact Hc].
           ++ destruct (Hall c Hc) as (q & Hq & Hcontrib).
              exists q; split; [right; exact Hq|exact Hcontrib].
Qed.

(** X12: when [get_all_subclasses] returns, the list is, in the order of
    the parents, what stands for each of them: all the direct subclasses of
    a parent that has some, in its place, and the parent itself when it has
    none or has no [__subclasses__].  So the list is at least as long as the
    list of parents, each element is such a parent or a direct subclass of
    a parent, and the subclasses of the subclasses are not looked for.  The
    function returns whenever no call raises anything but
    [AttributeError]. *)
Theorem get_all_subclasses_direct_only
    (parent_classes sub_classes : list cls) :
  get_all_subclasses cls subclasses parent_classes = Return sub_classes ->
  sub_classes = flat_map replaced_by parent_classes
  /\ (List.length parent_classes <= List.length sub_classes)%nat
  /\ (forall c, In c sub_classes ->
                exists p, In p parent_classes /\ contribution p c)
  /\ (forall parents,
        Forall (fun p => forall err, subclasses p = Raise err ->
                                     is_attribute_error err = true) parents ->
        get_all_subclasses cls subclasses parents
        = Return (flat_map replaced_by parents)).
Proof.
  unfold get_all_subclasses; intros H.
  split; [exact (collect_exact _ _ _ H)|].
  destruct (collect_spec _ _ _ H) as (added & -> & Hlen & Hall).
  split; [exact Hlen|]; split; [exact Hall|].
  intros parents Hparents; exact (collect_returns parents [] Hparents).
Qed.

End Classes.

End HelperFacts.

(** ** More on calculate_dir_hash, get_str_hash and extract_param *)

Module MoreFacts.

Import PyStr PyStrFacts FingerprintFacts ScriptFileParser ParserFacts.

#[local] Arguments chars : simpl never.

Section Unread.

Context `{RT : Runtime}.

(** A change of a timestamp that the patterns keep the code from reading:
    of a file whose name [file_filter] does not match, of a directory whose
    name [dir_filter] does not match or of a file in such a directory; at
    the top or in any listing below it. *)
Inductive unread_change (dir_filter file_filter : pattern)
  : node -> node -> Prop :=
| change_unmatched_file name m m' :
    re_search_ignorecase file_filter name = false ->
    unread_change dir_filter file_filter (File name m) (File name m')
| change_unmatched_dir name l m m' listing :
    re_search_ignorecase dir_filter name = false ->
    unread_change dir_filter file_filter
      (Dir name l m listing) (Dir name l m' listing)
| change_in_unmatched_dir name l m pre post fname fm fm' :
    re_search_ignorecase dir_filter name = false ->
    unread_change dir_filter file_filter
      (Dir name l m (Return (pre ++ File fname fm :: post)%list))
      (Dir name l m (Return (pre ++ File fname fm' :: post)%list))
| change_below name l m pre post c c' :
    unread_change dir_filter file_filter c c' ->
    unread_change dir_filter file_filter
      (Dir name l m (Return (pre ++ c :: post)%list))
      (Dir name l m (Return (pre ++ c' :: post)%list)).

Lemma sub_stamps_dir (dir_filter file_filter : pattern) (name : string)
    (l : bool) (m : result float) (listing : result (list node)) :
  sub_stamps dir_filter file_filter (Dir name l m listing)
  = if l then [] else stamps dir_filter file_filter (Dir name l m listing).
Proof. destruct l; reflexivity. Qed.

Lemma stamps_unlistable (dir_filter file_filter : pattern) (name : string)
    (l : bool) (m : result float) (e : exn) :
  stamps dir_filter file_filter (Dir name l m (Raise e)) = [].
Proof. reflexivity. Qed.

Lemma unread_change_stamps (dir_filter file_filter : pattern) (t t' : node) :
  unread_change dir_filter file_filter t t' ->
  stamps dir_filter file_filter t = stamps dir_filter file_filter t'
  /\ file_stamp file_filter t = file_stamp file_filter t'
  /\ sub_stamps dir_filter file_filter t = sub_stamps dir_filter file_filter t'.
Proof.
  induction 1 as [name m m' Hff|name l m m' listing Hdf
                 |name l m pre post fname fm fm' Hdf
                 |name l m pre post c c' _ (IHs & IHf & IHsub)].
  - repeat split.
    unfold file_stamp; simpl; rewrite Hff; reflexivity.
  - assert (Hs : stamps dir_filter file_filter (Dir name l m listing)
                 = stamps dir_filter file_filter (Dir name l m' listing)).
    { destruct listing as [e|names]; [reflexivity|].
      rewrite !stamps_dir, Hdf; reflexivity. }
    split; [exact Hs|]; split; [reflexivity|].
    rewrite !sub_stamps_dir, Hs; reflexivity.
  - assert (Hs : stamps dir_filter file_filter
                   (Dir name l m (Return (pre ++ File fname fm :: post)%list))
                 = stamps dir_filter file_filter
                     (Dir name l m
                        (Return (pre ++ File fname fm' :: post)%list))).
    { rewrite !stamps_dir, Hdf, !flat_map_app; reflexivity. }
    split; [exact Hs|]; split; [reflexivity|].
    rewrite !sub_stamps_dir, Hs; reflexivity.
  - assert (Hs : stamps dir_filter file_filter
                   (Dir name l m (Return (pre ++ c :: post)%list))
                 = stamps dir_filter file_filter
                     (Dir name l m (Return (pre ++ c' :: post)%list))).
    { rewrite !stamps_dir, !flat_map_app; cbn [flat_map].
      rewrite IHf, IHsub; reflexivity. }
    split; [exact Hs|]; split; [reflexivity|].
    rewrite !sub_stamps_dir, Hs; reflexivity.
Qed.

(** X13: the fingerprint does not change when a timestamp changes that
    the patterns keep the code from reading, wherever it is in the tree. *)
Theorem calculate_dir_hash_ignores_unread
    (dir_filter file_filter : pattern) (t t' : node) :
  unread_change dir_filter file_filter t t' ->
  calculate_dir_hash t dir_filter file_filter
  = calculate_dir_hash t' dir_filter file_filter.
Proof.
  intros H; rewrite !calculate_dir_hash_reads.
  rewrite (proj1 (unread_change_stamps _ _ _ _ H)); reflexivity.
Qed.


End Unread.

(** *** The digits of a digest *)

Definition hex_digits : string := "0123456789abcdef".

Lemma hex_digit_In (n : Z) : In (MD5.hex_digit (n mod 16)) (chars hex_digits).
Proof.
  unfold MD5.hex_digit.
  apply nth_In.
  pose proof (Z.mod_pos_bound n 16 eq_refl) as H.
  change (List.length (chars hex_digits)) with 16%nat.
  lia.
Qed.

Lemma hex_byte_chars (b : Z) (rest : string) (c : ascii) :
  In c (chars (MD5.hex_byte b rest)) ->
  In c (chars hex_digits) \/ In c (chars rest).
Proof.
  unfold MD5.hex_byte; rewrite !chars_cons.
  intros [<-|[<-|H]]; [left; apply hex_digit_In|left; apply hex_digit_In|].
  right; exact H.
Qed.

Lemma hex_word_chars (x : Z) (rest : string) (c : ascii) :
  In c (chars (MD5.hex_word x rest)) ->
  In c (chars hex_digits) \/ In c (chars rest).
Proof.
  unfold MD5.hex_word; intros H.
  repeat (apply hex_byte_chars in H; destruct H as [H|H]; [left; exact H|]).
  right; exact H.
Qed.

(** The strings of ASCII characters: their encoding as UTF-8 is the string
    itself and cannot fail, in Python 2 and in Python 3. *)
Definition is_ascii (s : string) : bool :=
  forallb (fun c => (N_of_ascii c <? 128)%N) (chars s).

(** X15: for a string of ASCII characters, which [encode('utf-8')] leaves as
    it is and cannot refuse, [get_str_hash] gives 32 characters, each of
    them a digit or a letter from [a] to [f]. *)
Theorem get_str_hash_is_lowercase_hex (source_str : string) :
  is_ascii source_str = true ->
  String.length (get_str_hash source_str) = 32%nat
  /\ (forall c, In c (chars (get_str_hash source_str)) ->
                In c (chars hex_digits)).
Proof.
  intros _.
  split; [apply get_str_hash_length|].
  intros c; unfold get_str_hash, MD5.hexdigest.
  destruct (MD5.digest_state _) as [[[w0 w1] w2] w3]; intros H.
  repeat (apply hex_word_chars in H; destruct H as [H|H]; [exact H|]).
  destruct H.
Qed.

(** *** Assignments without a plain name on the left *)

Definition not_a_name (target : expr) : bool :=
  match target with
  | Name _ => false
  | _ => true
  end.

Section Targets.

Context `{RT : Runtime}.

Lemma scan_drop (pre post : list stmt) (child : stmt) (name : string) :
  targets_name name child = false ->
  scan (pre ++ child :: post) name = scan (pre ++ post) name.
Proof.
  intros Hchild; induction pre as [|s pre IH]; simpl.
  - unfold targets_name in Hchild.
    destruct (stmt_targets child) as [targets|]; [rewrite Hchild|];
      reflexivity.
  - destruct (stmt_targets s) as [targets|]; [|exact IH].
    destruct (existsb (is_id name) targets); [reflexivity|exact IH].
Qed.

Lemma not_a_name_is_id (name : string) (targets : list expr) :
  forallb not_a_name targets = true ->
  existsb (is_id name) targets = false.
Proof.
  induction targets as [|t targets IH]; simpl; [reflexivity|].
  intros H; apply andb_true_iff in H; destruct H as (Ht & Hrest).
  rewrite (IH Hrest); destruct t; try discriminate; reflexivity.
Qed.

(** X16: an assignment whose targets are all tuples, lists, attributes or
    subscripts, such as [x, y = 1, 2], is not seen by [extract_param],
    whatever the name asked for, the names in the tuple included: the
    result is that of the script without the statement. *)
Theorem extract_param_skips_unpacking
    (addr : string) (pre post : list stmt) (targets : list expr) (v : expr)
    (param_name : string) :
  forallb not_a_name targets = true ->
  extract_param (parsed addr (pre ++ Assign targets v :: post)) param_name
  = extract_param (parsed addr (pre ++ post)) param_name.
Proof.
  intros H; unfold extract_param, try_block, parsed; simpl.
  rewrite (scan_drop pre post (Assign targets v) param_name);
    [reflexivity|].
  unfold targets_name; simpl; apply not_a_name_is_id, H.
Qed.

End Targets.

End MoreFacts.

(** ** The helpers on sample inputs *)

Module HelperExamples.

Import PyStr PyStrFacts CleanupFacts StringHelperFacts HelperFacts MoreFacts.
Import ScriptFileParser ParserFacts Subclasses Sample FingerprintExamples.

Lemma rev_special_chars : Permutation (rev SPECIAL_CHARS) SPECIAL_CHARS.
Proof. apply Permutation_sym, Permutation_rev. Qed.

Lemma cleanup_string_leaves_no_special_witness :
  is_special "."%char = true
  /\ ~ In "."%char
       (chars (cleanup_string (rev SPECIAL_CHARS) "my tool (v1.0)")).
Proof.
  split; [reflexivity|].
  apply (cleanup_string_leaves_no_special
           (rev SPECIAL_CHARS) "my tool (v1.0)" "."%char);
    [exact rev_special_chars|reflexivity].
Defined.

Lemma cleanup_string_idempotent_witness :
  cleanup_string (rev SPECIAL_CHARS)
    (cleanup_string SPECIAL_CHARS "my tool \(v1.0)")
  = cleanup_string SPECIAL_CHARS "my tool \(v1.0)".
Proof.
  apply (cleanup_string_idempotent
           SPECIAL_CHARS (rev SPECIAL_CHARS) "my tool \(v1.0)");
    [apply Permutation_refl|exact rev_special_chars].
Defined.

Lemma no_backslash_in_sample : ~ In backslash (chars "my tool (v1.0)").
Proof. vm_compute; intuition discriminate. Qed.

Lemma cleanup_string_without_backslash_witness :
  cleanup_string (rev SPECIAL_CHARS) "my tool (v1.0)" = "mytool(v1DOT0)"
  /\ In "("%char (chars (cleanup_string (rev SPECIAL_CHARS) "my tool (v1.0)")).
Proof.
  destruct (cleanup_string_without_backslash
              (rev SPECIAL_CHARS) "my tool (v1.0)"
              rev_special_chars no_backslash_in_sample) as (Heq & Hkeep).
  split.
  - rewrite Heq; vm_compute; reflexivity.
  - apply Hkeep; [reflexivity|].
    vm_compute; intuition.
Defined.

Lemma no_backslash_in_tail : ~ In backslash (chars "x)").
Proof. vm_compute; intuition discriminate. Qed.

Lemma cleanup_string_depends_on_order_witness :
  cleanup_string SPECIAL_CHARS "\(x)" = "x)"
  /\ cleanup_string (rev SPECIAL_CHARS) "\(x)" = "(x)".
Proof.
  destruct (cleanup_string_depends_on_order "x)" no_backslash_in_tail)
    as (_ & Hsrc & Hrev).
  split; [exact Hsrc|exact Hrev].
Defined.

Lemma no_semicolon_in_paths :
  Forall (fun x => ~ In ";"%char (chars x)) ["C:\lib"; "D:\ext"].
Proof. repeat constructor; vm_compute; intuition discriminate. Qed.

Lemma join_strings_split_witness :
  join_strings (Some ["C:\lib"; "D:\ext"]) = "C:\lib;D:\ext"
  /\ split ";" (join_strings (Some ["C:\lib"; "D:\ext"]))
     = ["C:\lib"; "D:\ext"].
Proof.
  split; [reflexivity|].
  exact (proj1 (join_strings_split "C:\lib" ["D:\ext"]
                  no_semicolon_in_paths)).
Defined.

(** A class with two subclasses, a class with none, and an object that is
    no class. *)
Definition direct_subclasses (c : string) : result (list string) :=
  if String.eqb c "Base" then Return ["A"; "B"]
  else if String.eqb c "object()" then
    Raise (Exn AttributeError "object has no attribute '__subclasses__'")
  else Return [].

Lemma get_all_subclasses_direct_only_witness :
  get_all_subclasses string direct_subclasses ["Base"; "A"; "object()"]
  = Return ["A"; "B"; "A"; "object()"]
  /\ ["A"; "B"; "A"; "object()"]
     = flat_map (replaced_by string direct_subclasses)
         ["Base"; "A"; "object()"]
  /\ (3 <= 4)%nat
  /\ (forall c, In c ["A"; "B"; "A"; "object()"] ->
                exists p, In p ["Base"; "A"; "object()"]
                          /\ contribution string direct_subclasses p c).
Proof.
  split; [reflexivity|].
  destruct (get_all_subclasses_direct_only string direct_subclasses
              ["Base"; "A"; "object()"] ["A"; "B"; "A"; "object()"]
              eq_refl) as (Hexact & Hlen & Hall & _).
  split; [exact Hexact|]; split; [exact Hlen|exact Hall].
Defined.

(** [ext] with another timestamp for [notes.txt]. *)
Definition ext_touched : node :=
  Dir "ext" false (Return stamp_b)
    (Return [File "c.py" (Return stamp_b);
             Dir "PyLib" false (Return stamp_d)
               (Return [a_py; File "notes.txt" (Return stamp_a)])]).

Lemma notes_unread :
  unread_change (RT := runtime) "lib" "py" ext ext_touched.
Proof.
  apply (change_below (RT := runtime) "lib" "py" "ext" false (Return stamp_b)
           [File "c.py" (Return stamp_b)] []).
  apply (change_below (RT := runtime) "lib" "py" "PyLib" false (Return stamp_d) [a_py] []).
  apply change_unmatched_file; reflexivity.
Qed.

Lemma calculate_dir_hash_ignores_unread_witness :
  calculate_dir_hash ext "lib" "py" = calculate_dir_hash ext_touched "lib" "py".
Proof.
  exact (calculate_dir_hash_ignores_unread (RT := runtime)
           "lib" "py" ext ext_touched notes_unread).
Defined.

Lemma extract_param_skips_unpacking_witness :
  forallb not_a_name [Tuple [Name "x"; Name "y"]] = true
  /\ extract_param
       (parsed "pair.py"
          ([] ++ Assign [Tuple [Name "x"; Name "y"]] (Tuple [one; two])
              :: [Assign [Name "x"] two])) "x"
     = extract_param (parsed "pair.py" ([] ++ [Assign [Name "x"] two])) "x".
Proof.
  split; [reflexivity|].
  apply (extract_param_skips_unpacking (RT := runtime) "pair.py" []
           [Assign [Name "x"] two] [Tuple [Name "x"; Name "y"]]
           (Tuple [one; two]) "x").
  reflexivity.
Defined.

End HelperExamples.

(** ** A deleted name, and a digest *)

Module MoreExamples.

Import ScriptFileParser ParserFacts MoreFacts Sample.

(** [def f(): x = 1] and then [del x]. *)
Definition nested_then_del : list stmt :=
  [FunctionDef "f" [] [Assign [Name "x"] one]; Delete [Name "x"]].

(** [import x], [del x] and then [x = None]. *)
Definition del_then_none : list stmt :=
  [Import ["x"]; Delete [Name "x"]; Assign [Name "x"] (Name "None")].

(** No top-level statement of [body] is an assignment with the name among
    its targets. *)
Definition not_assigned_in (param_name : string) (body : list stmt) : bool :=
  forallb (fun s => match s with
                    | Assign targets _ =>
                        negb (existsb (is_id param_name) targets)
                    | _ => true
                    end) body.

(** C5: [x] is assigned only in the body of [f], and the statement
    [del x] follows at top level.  The query for [x] does not return
    [None]: the [Delete] node has [targets] and no [value], and the query
    raises.  The body of [f] plays no part: without it the result is the
    same. *)
Lemma extract_param_nested_then_del_raises :
  not_assigned_in "x" nested_then_del = true
  /\ extract_param (parsed "nested_del.py" nested_then_del) "x"
     = Raise (Exn PyRevitException
                ("Error parsing parameter: x in script file for : "
                 ++ "nested_del.py"
                 ++ " | 'Delete' object has no attribute 'value'"))
  /\ extract_param (parsed "nested_del.py" nested_then_del) "x"
     = extract_param
         (parsed "nested_del.py" (map strip_bodies nested_then_del)) "x".
Proof. repeat split. Qed.

(** C9: the only top-level assignment to [x] is [x = None], after
    [import x] and [del x].  The query for [x] does not return [None]: it
    raises at the [Delete] node, as it does for the script without the
    assignment. *)
Lemma extract_param_del_then_none_raises :
  not_assigned_in "x" [Import ["x"]; Delete [Name "x"]] = true
  /\ extract_param (parsed "del_none.py" del_then_none) "x"
     = Raise (Exn PyRevitException
                ("Error parsing parameter: x in script file for : "
                 ++ "del_none.py"
                 ++ " | 'Delete' object has no attribute 'value'"))
  /\ raises (extract_param
               (parsed "del_none.py" [Import ["x"]; Delete [Name "x"]]) "x")
     = true.
Proof. repeat split. Qed.

Lemma get_str_hash_is_lowercase_hex_witness :
  is_ascii "4434543402.62" = true
  /\ String.length (get_str_hash "4434543402.62") = 32%nat
  /\ (forall c, In c (PyStr.chars (get_str_hash "4434543402.62")) ->
                In c (PyStr.chars hex_digits)).
Proof.
  split; [reflexivity|].
  apply (get_str_hash_is_lowercase_hex "4434543402.62"); reflexivity.
Defined.

End MoreExamples.
